(** * Server-side rendering with React Router: a shallow embedding

    The development follows the modules of the repository:
    - [shared/api.js]     the Data Loader [fetchPopularRepos];
    - [shared/routes.js]  the route table [routes];
    - [shared/navbar.js], [shared/home.js], [shared/grid.js], [shared/app.js]
      the View Tree;
    - [server/index.js], [browser/index.js]  the two entry points.

    JavaScript strings are modelled as [string] (a sequence of bytes, read as
    the UTF-8 encoding of a well-formed string; the argument of the Data
    Loader is also modelled as a sequence of UTF-16 code units, where a lone
    surrogate can be written), JavaScript numbers as integers (of a magnitude
    whose [String(n)] is the plain decimal numeral), JavaScript values by the
    inductive type [value], the [window] object by a finite map from property
    names to values, exceptions by [result], and promises by a small
    writer/error monad that records the effects performed. *)

From stdpp Require Import gmap strings list pretty.
From Stdlib Require Import ZArith Ascii.
From Stdlib Require String.

Set Warnings "-register-all".

Local Open Scope Z_scope.

(** ** JavaScript values *)

Inductive value : Type :=
| VUndefined
| VNull
| VBool (b : bool)
| VNum (n : Z)
| VStr (s : string)
| VArr (vs : list value)
| VObj (fields : list (string * value)).

Inductive error : Type :=
| TypeError (msg : string)
| NetworkError (msg : string)
| SyntaxError (msg : string)
| URIError (msg : string)
| InvariantViolation (msg : string).

(** A computation that may throw. *)
Inductive result (A : Type) : Type :=
| Ok (a : A)
| Throw (e : error).
Arguments Ok {A} a.
Arguments Throw {A} e.

Definition rbind {A B} (r : result A) (k : A -> result B) : result B :=
  match r with
  | Ok a => k a
  | Throw e => Throw e
  end.

Notation "'attempt' x <- c 'in' k" := (rbind c (fun x => k))
  (at level 10, x name, c at level 100, k at level 200).

(** [ToBoolean]: the falsy values are undefined, null, false, 0 and the
    empty string. *)
Definition truthy (v : value) : bool :=
  match v with
  | VUndefined | VNull => false
  | VBool b => b
  | VNum n => negb (n =? 0)
  | VStr s => negb (String.eqb s EmptyString)
  | VArr _ | VObj _ => true
  end.

Fixpoint assoc (k : string) (fs : list (string * value)) : option value :=
  match fs with
  | [] => None
  | (k', v) :: fs' => if String.eqb k k' then Some v else assoc k fs'
  end.

(** Property read [v.k], for the property names the sources use ([items],
    [data], [name], [owner], [login], [stargazers_count], [html_url]): none of
    them exists on a primitive, on an array or on [Object.prototype], so only
    an own field of an object yields something else than undefined; reading a
    property of undefined or null throws. *)
Definition get (v : value) (k : string) : result value :=
  match v with
  | VUndefined => Throw (TypeError "Cannot read property of undefined")
  | VNull => Throw (TypeError "Cannot read property of null")
  | VObj fs => Ok (default VUndefined (assoc k fs))
  | _ => Ok VUndefined
  end.

(** ** Strings *)

Definition string_mem (c : ascii) (s : string) : bool :=
  existsb (Ascii.eqb c) (String.list_ascii_of_string s).

Definition is_alnum (c : ascii) : bool :=
  let n := nat_of_ascii c in
  ((48 <=? n) && (n <=? 57) || (65 <=? n) && (n <=? 90)
   || (97 <=? n) && (n <=? 122))%nat.

Definition hex_digit (n : nat) : ascii :=
  ascii_of_nat (if (n <? 10)%nat then 48 + n else 55 + n)%nat.

Definition percent (c : ascii) : string :=
  let n := nat_of_ascii c in
  String "%" (String (hex_digit (n / 16)) (String (hex_digit (n mod 16)) EmptyString)).

Fixpoint escape_with (keep : ascii -> bool) (s : string) : string :=
  match s with
  | EmptyString => EmptyString
  | String c s' =>
      (if keep c then String c EmptyString else percent c) +:+ escape_with keep s'
  end.

(** [encodeURI] leaves letters, digits, the marks and the reserved characters
    alone and percent-encodes every other byte. *)
Definition uri_kept (c : ascii) : bool :=
  is_alnum c || string_mem c ";/?:@&=+$,#-_.!~*'()".

Definition encodeURI : string -> string := escape_with uri_kept.

(** ** JavaScript strings as code units

    [encodeURI] is defined on sequences of UTF-16 code units: a unit of the
    kept set is copied, any other code point is written as the escaped
    octets of its UTF-8 form, and a surrogate that is not part of a pair
    throws [URIError]. *)

Definition is_high (u : N) : bool := ((55296 <=? u) && (u <=? 56319))%N.

Definition is_low (u : N) : bool := ((56320 <=? u) && (u <=? 57343))%N.

Definition code_point (hi lo : N) : N :=
  ((hi - 55296) * 1024 + (lo - 56320) + 65536)%N.

(** The octets of the UTF-8 form of a code point. *)
Definition utf8 (v : N) : string :=
  (if v <? 128 then String (ascii_of_N v) EmptyString
   else if v <? 2048 then
     String (ascii_of_N (192 + (v / 64) mod 32))
       (String (ascii_of_N (128 + v mod 64)) EmptyString)
   else if v <? 65536 then
     String (ascii_of_N (224 + (v / 4096) mod 16))
       (String (ascii_of_N (128 + (v / 64) mod 64))
          (String (ascii_of_N (128 + v mod 64)) EmptyString))
   else
     String (ascii_of_N (240 + (v / 262144) mod 8))
       (String (ascii_of_N (128 + (v / 4096) mod 64))
          (String (ascii_of_N (128 + (v / 64) mod 64))
             (String (ascii_of_N (128 + v mod 64)) EmptyString))))%N.

Definition unit_kept (u : N) : bool := (u <? 128)%N && uri_kept (ascii_of_N u).

Fixpoint percent_all (s : string) : string :=
  match s with
  | EmptyString => EmptyString
  | String c s' => percent c +:+ percent_all s'
  end.

Definition malformed : error := URIError "URI malformed".

(** The abstract operation [Encode] of [encodeURI]. *)
Fixpoint Encode (units : list N) : result string :=
  match units with
  | [] => Ok EmptyString
  | c :: rest =>
      if unit_kept c then
        attempt r <- Encode rest in Ok (String (ascii_of_N c) r)
      else if is_low c then Throw malformed
      else if is_high c then
        match rest with
        | k :: rest' =>
            if is_low k then
              attempt r <- Encode rest' in
              Ok (percent_all (utf8 (code_point c k)) +:+ r)
            else Throw malformed
        | [] => Throw malformed
        end
      else
        attempt r <- Encode rest in Ok (percent_all (utf8 c) +:+ r)
  end.

(** A sequence of code units is well formed when every surrogate is part of
    a pair; its UTF-8 form is then the byte string that stands for it in the
    rest of the development. *)
Fixpoint well_formed (units : list N) : bool :=
  match units with
  | [] => true
  | c :: rest =>
      if is_low c then false
      else if is_high c then
        match rest with
        | k :: rest' => is_low k && well_formed rest'
        | [] => false
        end
      else well_formed rest
  end.

Fixpoint to_utf8 (units : list N) : option string :=
  match units with
  | [] => Some EmptyString
  | c :: rest =>
      if is_low c then None
      else if is_high c then
        match rest with
        | k :: rest' =>
            if is_low k
            then String.append (utf8 (code_point c k)) <$> to_utf8 rest'
            else None
        | [] => None
        end
      else String.append (utf8 c) <$> to_utf8 rest
  end.

(** The code units of a string literal of the sources (ASCII). *)
Definition units_of (s : string) : list N :=
  map N_of_ascii (String.list_ascii_of_string s).

(** [String.prototype.split] with a one-character separator: never empty. *)
Fixpoint split (sep : ascii) (s : string) : list string :=
  match s with
  | EmptyString => [EmptyString]
  | String c s' =>
      if Ascii.eqb c sep then EmptyString :: split sep s'
      else match split sep s' with
           | seg :: rest => String c seg :: rest
           | [] => [String c EmptyString]
           end
  end.

(** [Array.prototype.pop]: the last element, undefined ([None]) when the
    array is empty. *)
Definition pop (l : list string) : option string := last l.

(** ** Promises

    A Promise is modelled by its settlement together with the effects
    performed on the way: the requests sent and the console warnings. *)

Inductive event : Type :=
| EvFetch (url : string)
| EvWarn (e : error).

Inductive settled (A : Type) : Type :=
| Resolved (a : A)
| Rejected (e : error).
Arguments Resolved {A} a.
Arguments Rejected {A} e.

Definition Promise (A : Type) : Type := (list event * settled A)%type.

Definition Promise_resolve {A} (a : A) : Promise A := ([], Resolved a).

(** [p.then(f)]: [f] runs on fulfilment; what it returns is adopted, what it
    throws rejects. *)
Definition then_ {A B} (p : Promise A) (f : A -> Promise B) : Promise B :=
  match p with
  | (ev, Resolved a) => let '(ev', s) := f a in (ev ++ ev', s)
  | (ev, Rejected e) => (ev, Rejected e)
  end.

(** [p.catch(h)]: [h] runs on rejection. *)
Definition catch_ {A} (p : Promise A) (h : error -> Promise A) : Promise A :=
  match p with
  | (ev, Resolved a) => (ev, Resolved a)
  | (ev, Rejected e) => let '(ev', s) := h e in (ev ++ ev', s)
  end.

Definition of_result {A} (r : result A) : Promise A :=
  match r with
  | Ok a => ([], Resolved a)
  | Throw e => ([], Rejected e)
  end.

(** The outside world seen by [fetch]: for each URL either the transport
    fails, or a response arrives whose body parses as JSON or does not. *)
Inductive response : Type :=
| BadBody (e : error)
| JsonBody (j : value).

Inductive fetch_outcome : Type :=
| NetworkFail (e : error)
| Responded (r : response).

Definition network : Type := string -> fetch_outcome.

Definition fetch (net : network) (url : string) : Promise response :=
  ([EvFetch url],
   match net url with
   | NetworkFail e => Rejected e
   | Responded r => Resolved r
   end).

Definition json (r : response) : Promise value :=
  match r with
  | BadBody e => ([], Rejected e)
  | JsonBody j => ([], Resolved j)
  end.

Definition console_warn (e : error) : Promise unit := ([EvWarn e], Resolved tt).

(** ** shared/api.js *)

Definition endpoint (language : string) : string :=
  "https://api.github.com/search/repositories?q=stars:>1+language:" +:+ language
  +:+ "&sort=stars&order=desc&type=Repositories".

(** The default parameter [language = 'all'] applies to an undefined
    argument only. *)
Definition encodedURI (language : option string) : string :=
  encodeURI (endpoint (default "all" language)).

Definition fetchPopularRepos (net : network) (language : option string)
  : Promise value :=
  catch_
    (then_ (then_ (fetch net (encodedURI language))
                  (fun data => json data))
           (fun repos => of_result (get repos "items")))
    (fun error => then_ (console_warn error) (fun _ => Promise_resolve VNull)).

(** The same function on an arbitrary JavaScript string, given by its code
    units: the call of [encodeURI] happens before the promise chain exists,
    so that what it throws is thrown by [fetchPopularRepos] itself.  On a
    well-formed string this is [fetchPopularRepos] on its UTF-8 form. *)
Definition endpoint_units (language : list N) : list N :=
  units_of "https://api.github.com/search/repositories?q=stars:>1+language:"
  ++ language ++ units_of "&sort=stars&order=desc&type=Repositories".

Definition fetchPopularRepos_utf16 (net : network) (language : option (list N))
  : result (Promise value) :=
  attempt encodedURI <- Encode (endpoint_units (default (units_of "all") language)) in
  Ok (catch_
        (then_ (then_ (fetch net encodedURI)
                      (fun data => json data))
               (fun repos => of_result (get repos "items")))
        (fun error => then_ (console_warn error) (fun _ => Promise_resolve VNull))).

(** ** shared/routes.js *)

Inductive component : Type := Home | Grid.

Record route : Type := {
  path : string;
  exact : value;
  component_of : component;
  fetchInitialData : option (option string -> network -> Promise value)
}.

Definition popular_fetchInitialData (path : option string) (net : network)
  : Promise value :=
  fetchPopularRepos net (pop (split "/" (default EmptyString path))).

Definition routes : list route :=
  [ {| path := "/"; exact := VStr "true"; component_of := Home;
       fetchInitialData := None |};
    {| path := "/popular/:id"; exact := VUndefined; component_of := Grid;
       fetchInitialData := Some popular_fetchInitialData |} ].

(** ** Route matching (react-router's [matchPath])

    The router is an external collaborator.  Its matcher is modelled for the
    patterns this repository uses: a pattern that starts with a slash and
    whose segments are literals or named parameters [:name].  Such a pattern
    compiles to a regular expression that matches the pathname segment by
    segment, ignoring case, lets a parameter capture one non-empty segment,
    tolerates one trailing slash, and is anchored at the end of the pathname
    only when [end] is set. *)

Inductive segment : Type :=
| Lit (s : string)
| Param (name : string).

Definition to_lower (c : ascii) : ascii :=
  let n := nat_of_ascii c in
  if ((65 <=? n) && (n <=? 90))%nat then ascii_of_nat (n + 32) else c.

Fixpoint lower (s : string) : string :=
  match s with
  | EmptyString => EmptyString
  | String c s' => String (to_lower c) (lower s')
  end.

Definition to_segment (s : string) : segment :=
  match s with
  | String ":" name => Param name
  | _ => Lit s
  end.

(** Without [strict], one trailing delimiter of the pattern is dropped. *)
Fixpoint strip_trailing (l : list string) : list string :=
  match l with
  | [] => []
  | [EmptyString] => []
  | s :: l' => s :: strip_trailing l'
  end.

Definition compilePath (path : string) : list segment :=
  map to_segment (strip_trailing (tail (split "/" path))).

(** A link target is escaped before it is compiled: all its segments are
    literals. *)
Definition compileLiteral (path : string) : list segment :=
  map Lit (strip_trailing (tail (split "/" path))).

Definition params : Type := list (string * string).

Fixpoint match_segments (end_ : bool) (segs : list segment) (pieces : list string)
  : option params :=
  match segs with
  | [] =>
      match pieces with
      | [] | [EmptyString] => Some []
      | _ => if end_ then None else Some []
      end
  | Lit s :: segs' =>
      match pieces with
      | p :: pieces' =>
          if String.eqb (lower s) (lower p)
          then match_segments end_ segs' pieces'
          else None
      | [] => None
      end
  | Param name :: segs' =>
      match pieces with
      | p :: pieces' =>
          if String.eqb p EmptyString then None
          else option_map (cons (name, p)) (match_segments end_ segs' pieces')
      | [] => None
      end
  end.

(** [matchPath] passes [end: exact] with [exact] defaulting to [false]; the
    pattern compiler reads it as [end !== false]. *)
Definition end_of (exact : value) : bool :=
  match exact with
  | VUndefined | VBool false => false
  | _ => true
  end.

Definition match_compiled (pathname : string) (segs : list segment) (exact : value)
  : option params :=
  match split "/" pathname with
  | EmptyString :: pieces => match_segments (end_of exact) segs pieces
  | _ => None
  end.

Definition matchPath (pathname : string) (r : route) : option params :=
  match_compiled pathname (compilePath (path r)) (exact r).

(** ** View elements

    What a [render] function returns: JSX text, an embedded expression, or
    an element with its props (the key among them) and children. *)

Inductive node : Type :=
| Text (s : string)
| Expr (v : value)
| Elem (tag : string) (props : list (string * value)) (children : list node).

(** ** shared/navbar.js *)

Record language : Type := { name : string; param : string }.

Definition languages : list language :=
  [ {| name := "All"; param := "all" |};
    {| name := "JavaScript"; param := "javascript" |};
    {| name := "Go"; param := "golang" |};
    {| name := "TypeScript"; param := "typescript" |};
    {| name := "Rust"; param := "rust" |};
    {| name := "Julia"; param := "julia" |} ].

(** react-router's [NavLink]: an anchor that receives the active class and
    the [activeStyle] when the location matches its target (as a prefix,
    segment by segment), and [aria-current={isActive && 'true'}] in both
    cases. *)
Definition NavLink (pathname : string) (activeStyle : value) (to : string)
  (children : list node) : node :=
  let isActive := bool_decide (is_Some (match_compiled pathname (compileLiteral to) VUndefined)) in
  Elem "a"
    (if isActive
     then [("className", VStr "active"); ("style", activeStyle);
           ("aria-current", VStr "true"); ("href", VStr to)]
     else [("aria-current", VBool false); ("href", VStr to)])
    children.

Definition Navbar (pathname : string) : node :=
  Elem "ul" []
    (map (fun l =>
            Elem "li" [("key", VStr (param l))]
              [NavLink pathname (VObj [("fontWeight", VStr "bold")])
                 ("/popular/" +:+ param l) [Expr (VStr (name l))]])
         languages).

(** ** shared/home.js *)

Definition Home_render : node := Elem "div" [] [Text "Select a language"].

(** ** shared/grid.js *)

Record GridState : Type := { repos : value; loading : bool }.

Record GridProps : Type := {
  match_params : params;
  staticContext : value;
  props_fetchInitialData : option (option string -> network -> Promise value)
}.

Definition INITIAL_DATA : string := "__INITIAL_DATA__".

Definition match_params_id (props : GridProps) : option string :=
  snd <$> find (fun kv => String.eqb (fst kv) "id") (match_params props).

(** [isBrowser] is the build-time constant [__isBrowser__]; [window] is
    threaded through and only touched by the browser build. *)
Definition Grid_constructor (isBrowser : bool) (props : GridProps)
  (window : gmap string value) : result (GridState * gmap string value) :=
  if isBrowser then
    let repos := default VUndefined (window !! INITIAL_DATA) in
    Ok ({| repos := repos; loading := if truthy repos then false else true |},
        delete INITIAL_DATA window)
  else
    attempt repos <- get (staticContext props) "data" in
    Ok ({| repos := repos; loading := if truthy repos then false else true |},
        window).

(** What one call of [fetchRepos] does: the state right after the
    synchronous part, the effects of the Data Loader call, and the state once
    its promise has settled (the [then] handler runs on fulfilment only). *)
Record fetching : Type := {
  pending : GridState;
  effects : list event;
  settled_state : GridState
}.

Definition fetchRepos (props : GridProps) (net : network) (st : GridState)
  (lang : option string) : result fetching :=
  let st1 := {| repos := repos st; loading := true |} in
  match props_fetchInitialData props with
  | None => Throw (TypeError "this.props.fetchInitialData is not a function")
  | Some f =>
      let '(ev, s) := f lang net in
      Ok {| pending := st1;
            effects := ev;
            settled_state :=
              match s with
              | Resolved repos => {| repos := repos; loading := false |}
              | Rejected _ => st1
              end |}
  end.

Definition idle (st : GridState) : fetching :=
  {| pending := st; effects := []; settled_state := st |}.

Definition componentDidMount (props : GridProps) (net : network) (st : GridState)
  : result fetching :=
  if negb (truthy (repos st))
  then fetchRepos props net st (match_params_id props)
  else Ok (idle st).

Definition componentWillReceiveProps (props : GridProps) (net : network)
  (st : GridState) (nextProps : GridProps) : result fetching :=
  if bool_decide (match_params_id nextProps ≠ match_params_id props)
  then fetchRepos props net st (match_params_id nextProps)
  else Ok (idle st).

Fixpoint traverse {A B} (f : A -> result B) (l : list A) : result (list B) :=
  match l with
  | [] => Ok []
  | a :: l' =>
      attempt b <- f a in
      attempt bs <- traverse f l' in
      Ok (b :: bs)
  end.

(** [repos.map(f)]: only an array has a callable [map]. *)
Definition array_map {B} (v : value) (f : value -> result B) : result (list B) :=
  match v with
  | VArr vs => traverse f vs
  | VUndefined => Throw (TypeError "Cannot read property 'map' of undefined")
  | VNull => Throw (TypeError "Cannot read property 'map' of null")
  | _ => Throw (TypeError "repos.map is not a function")
  end.

Definition Grid_entry (repo : value) : result node :=
  attempt name <- get repo "name" in
  attempt owner <- get repo "owner" in
  attempt stargazers_count <- get repo "stargazers_count" in
  attempt html_url <- get repo "html_url" in
  attempt login <- get owner "login" in
  Ok (Elem "li" [("key", name); ("style", VObj [("margin", VNum 30)])]
        [Elem "ul" []
           [Elem "li" [] [Elem "a" [("href", html_url)] [Expr name]];
            Elem "li" [] [Text "@"; Expr login];
            Elem "li" [] [Expr stargazers_count; Text " stars"]]]).

Definition LOADING : node := Elem "h1" [] [Text "LOADING"].

Definition Grid_render (st : GridState) : result node :=
  if loading st then Ok LOADING
  else
    attempt items <- array_map (repos st) Grid_entry in
    Ok (Elem "ul"
          [("style", VObj [("display", VStr "flex"); ("flexWrap", VStr "wrap")])]
          items).

(** ** shared/app.js *)

(** The router a tree is rendered under: the pathname of its location and
    the static context (undefined under [BrowserRouter]). *)
Record router : Type := { pathname : string; context : value }.

(** [Switch] renders the first [Route] whose pattern matches; the last
    [Route] has no pattern and matches every location. *)
Fixpoint Switch (pathname : string) (rs : list route) : option (route * params) :=
  match rs with
  | [] => None
  | r :: rs' =>
      match matchPath pathname r with
      | Some ps => Some (r, ps)
      | None => Switch pathname rs'
      end
  end.

Inductive mounted : Type :=
| MHome
| MGrid (props : GridProps) (st : GridState)
| MNoMatch.

(** [<C {...props} {...rest} />]: the route props and the rest of the
    descriptor. *)
Definition mount (isBrowser : bool) (rt : router) (window : gmap string value)
  : result (mounted * gmap string value) :=
  match Switch (pathname rt) routes with
  | None => Ok (MNoMatch, window)
  | Some (r, ps) =>
      match component_of r with
      | Home => Ok (MHome, window)
      | Grid =>
          let props := {| match_params := ps;
                          staticContext := context rt;
                          props_fetchInitialData := fetchInitialData r |} in
          attempt sw <- Grid_constructor isBrowser props window in
          Ok (MGrid props (fst sw), snd sw)
      end
  end.

Section Views.

(** The not-found view [./404] is not among the sources: what it renders
    is a parameter. *)
Variable NoMatch : node.

Definition view (m : mounted) : result node :=
  match m with
  | MHome => Ok Home_render
  | MGrid _ st => Grid_render st
  | MNoMatch => Ok NoMatch
  end.

(** [App.render]; the [data] prop is received and not used. *)
Definition App_render (isBrowser : bool) (rt : router) (data : value)
  (window : gmap string value) : result (node * mounted * gmap string value) :=
  attempt mw <- mount isBrowser rt window in
  attempt v <- view (fst mw) in
  Ok (Elem "div" [] [Navbar (pathname rt); v], fst mw, snd mw).

End Views.

(** ** Markup (react-dom's serializer)

    The serializer is external as well; it is modelled as far as the View
    Tree needs it: text and attribute values are escaped, the key is not an
    attribute, [className] is written [class], a style object becomes a
    declaration list, string and number attribute values are written, a
    boolean one only on an [aria-] or [data-] attribute, and others left
    out, adjacent text children are separated by a comment, the
    root element is marked, and an object is not a valid child. *)

Definition dquote : ascii := "034".

Fixpoint escapeHtml (s : string) : string :=
  match s with
  | EmptyString => EmptyString
  | String c s' =>
      (if Ascii.eqb c "&" then "&amp;"
       else if Ascii.eqb c "<" then "&lt;"
       else if Ascii.eqb c ">" then "&gt;"
       else if Ascii.eqb c dquote then "&quot;"
       else if Ascii.eqb c "'" then "&#x27;"
       else String c EmptyString) +:+ escapeHtml s'
  end.

Definition is_upper (c : ascii) : bool :=
  let n := nat_of_ascii c in ((65 <=? n) && (n <=? 90))%nat.

Fixpoint hyphenate (s : string) : string :=
  match s with
  | EmptyString => EmptyString
  | String c s' =>
      if is_upper c then String "-" (String (to_lower c) (hyphenate s'))
      else String c (hyphenate s')
  end.

Definition css_value (v : value) : option string :=
  match v with
  | VStr s => Some s
  | VNum n => Some (if n =? 0 then "0" else pretty n +:+ "px")
  | _ => None
  end.

Fixpoint css (fields : list (string * value)) : list string :=
  match fields with
  | [] => []
  | (k, v) :: fields' =>
      match css_value v with
      | Some s => (hyphenate k +:+ ":" +:+ s) :: css fields'
      | None => css fields'
      end
  end.

Fixpoint join (sep : string) (l : list string) : string :=
  match l with
  | [] => EmptyString
  | [s] => s
  | s :: l' => s +:+ sep +:+ join sep l'
  end.

Definition quoted (s : string) : string :=
  String dquote (escapeHtml s +:+ String dquote EmptyString).

Definition attribute (kv : string * value) : string :=
  let '(k, v) := kv in
  if String.eqb k "key" then EmptyString
  else
    let k' := if String.eqb k "className" then "class" else k in
    match v with
    | VStr s => " " +:+ k' +:+ "=" +:+ quoted s
    | VNum n => " " +:+ k' +:+ "=" +:+ quoted (pretty n)
    | VObj fs =>
        if String.eqb k "style" then " style=" +:+ quoted (join ";" (css fs))
        else EmptyString
    | VBool b =>
        if String.prefix "aria-" k || String.prefix "data-" k
        then " " +:+ k' +:+ "=" +:+ quoted (if b then "true" else "false")
        else EmptyString
    | _ => EmptyString
    end.

Definition attributes (props : list (string * value)) : string :=
  foldr (fun kv acc => attribute kv +:+ acc) EmptyString props.

Inductive piece : Type :=
| PText (s : string)
| PMarkup (s : string).

(** An expression child: strings and numbers are text, undefined, null and
    booleans render nothing, an array is flattened, an object is refused. *)
Fixpoint value_pieces (v : value) : result (list piece) :=
  match v with
  | VStr s => Ok [PText s]
  | VNum n => Ok [PText (pretty n)]
  | VUndefined | VNull | VBool _ => Ok []
  | VArr vs =>
      (fix go (l : list value) : result (list piece) :=
         match l with
         | [] => Ok []
         | x :: l' =>
             attempt a <- value_pieces x in
             attempt b <- go l' in
             Ok (a ++ b)
         end) vs
  | VObj _ => Throw (InvariantViolation "Objects are not valid as a React child")
  end.

Fixpoint join_pieces (prev_text : bool) (ps : list piece) : string :=
  match ps with
  | [] => EmptyString
  | PText s :: ps' =>
      if String.eqb s EmptyString then join_pieces prev_text ps'
      else (if prev_text then "<!-- -->" else EmptyString)
           +:+ escapeHtml s +:+ join_pieces true ps'
  | PMarkup m :: ps' => m +:+ join_pieces false ps'
  end.

Definition reactroot : string :=
  " data-reactroot=" +:+ String dquote (String dquote EmptyString).

Fixpoint markup_pieces (root : bool) (n : node) : result (list piece) :=
  match n with
  | Text s => Ok [PText s]
  | Expr v => value_pieces v
  | Elem tag props children =>
      attempt inner <-
        (fix go (l : list node) : result (list piece) :=
           match l with
           | [] => Ok []
           | x :: l' =>
               attempt a <- markup_pieces false x in
               attempt b <- go l' in
               Ok (a ++ b)
           end) children in
      Ok [PMarkup ("<" +:+ tag +:+ attributes props
                   +:+ (if root then reactroot else EmptyString) +:+ ">"
                   +:+ join_pieces false inner
                   +:+ "</" +:+ tag +:+ ">")]
  end.

Definition renderToString (n : node) : result string :=
  attempt ps <- markup_pieces true n in
  Ok (join_pieces false ps).

(** ** server/index.js *)

(** [req.path]: the URL without its query string. *)
Fixpoint req_path (url : string) : string :=
  match url with
  | EmptyString => EmptyString
  | String c url' => if Ascii.eqb c "?" then EmptyString else String c (req_path url')
  end.

(** [routes.find(route => matchPath(req.url, route)) || {}]: [None] stands
    for the empty object. *)
Definition activeRoute (url : string) : option route :=
  find (fun route => bool_decide (is_Some (matchPath url route))) routes.

Definition promise (net : network) (url : string) : Promise value :=
  match activeRoute url ≫= fetchInitialData with
  | Some fetchData => fetchData (Some (req_path url)) net
  | None => Promise_resolve VUndefined
  end.

(** The document sent: the markup placed in the mount element and the data
    assigned to the global slot by the inline script. *)
Record document : Type := { markup : string; initial_data : value }.

Section Entries.

Variable NoMatch : node.

(** [<StaticRouter location='req.url' context={{}}>]: the location is the
    string literal and the context the empty object, whatever the request
    and the data are. *)
Definition server_render (url : string) (data : value) : result string :=
  attempt r <- App_render NoMatch false
                 {| pathname := "req.url"; context := VObj [] |} data ∅ in
  renderToString (fst (fst r)).

(** [app.get('*', ...)]: a rejection is what [.catch(next)] forwards to the
    error handler. *)
Definition app_get (net : network) (url : string) : Promise document :=
  then_ (promise net url)
    (fun data =>
       of_result (attempt m <- server_render url data in
                  Ok {| markup := m; initial_data := data |})).

(** ** browser/index.js *)

(** [hydrate(<BrowserRouter><App data={window.__INITIAL_DATA__} /></BrowserRouter>)]:
    the entry reads the slot for the [data] prop. *)
Definition hydrate (location : string) (window : gmap string value)
  : result (node * mounted * gmap string value) :=
  let data := default VUndefined (window !! INITIAL_DATA) in
  App_render NoMatch true {| pathname := location; context := VUndefined |}
    data window.

(** The markup the first client render stands for. *)
Definition client_markup (location : string) (window : gmap string value)
  : result string :=
  attempt r <- hydrate location window in
  renderToString (fst (fst r)).

End Entries.

(** ** Specification-side definitions *)



Inductive phase : Type := Loading | Ready.

Definition phase_of (st : GridState) : phase :=
  if loading st then Loading else Ready.

Definition is_fetch (e : event) : bool :=
  match e with
  | EvFetch _ => true
  | EvWarn _ => false
  end.

Record Repository : Type := {
  repo_name : string;
  owner_login : string;
  starCount : Z;
  url : string
}.

Definition represents (v : value) (r : Repository) : Prop :=
  get v "name" = Ok (VStr (repo_name r))
  ∧ (∃ owner, get v "owner" = Ok owner
              ∧ get owner "login" = Ok (VStr (owner_login r)))
  ∧ get v "stargazers_count" = Ok (VNum (starCount r))
  ∧ get v "html_url" = Ok (VStr (url r)).

Definition entry (r : Repository) : node :=
  Elem "li" [("key", VStr (repo_name r)); ("style", VObj [("margin", VNum 30)])]
    [Elem "ul" []
       [Elem "li" [] [Elem "a" [("href", VStr (url r))] [Expr (VStr (repo_name r))]];
        Elem "li" [] [Text "@"; Expr (VStr (owner_login r))];
        Elem "li" [] [Expr (VNum (starCount r)); Text " stars"]]].

Definition react : Repository :=
  {| repo_name := "react"; owner_login := "facebook"; starCount := 100;
     url := "https://github.com/facebook/react" |}.

Definition react_json : value :=
  VObj [("id", VNum 10270250); ("name", VStr "react");
        ("owner", VObj [("login", VStr "facebook"); ("id", VNum 69631)]);
        ("html_url", VStr "https://github.com/facebook/react");
        ("stargazers_count", VNum 100)].

Definition grid_props (ps : params) (ctx : value) : GridProps :=
  {| match_params := ps; staticContext := ctx;
     props_fetchInitialData := Some popular_fetchInitialData |}.



Definition char_at (k : nat) (r : result string) : option ascii :=
  match r with
  | Ok s => String.get k s
  | Throw _ => None
  end.


(** ** Auxiliary notions *)

Definition chars (s : string) : list ascii := String.list_ascii_of_string s.

(** The characters a URI may be made of: those [encodeURI] keeps and the
    percent sign of an escape. *)
Definition uri_char (c : ascii) : bool := uri_kept c || Ascii.eqb c "%".

(** The value of a hexadecimal digit, and the byte of an escape. *)
Definition unhex (c : ascii) : nat :=
  let n := nat_of_ascii c in
  (if n <? 58 then n - 48 else n - 55)%nat.

Definition unpercent (h1 h2 : ascii) : ascii :=
  ascii_of_nat (16 * unhex h1 + unhex h2).

(** The grid route descriptor, as the second entry of the table. *)
Definition grid_route : route :=
  {| path := "/popular/:id"; exact := VUndefined; component_of := Grid;
     fetchInitialData := Some popular_fetchInitialData |}.

Definition home_route : route :=
  {| path := "/"; exact := VStr "true"; component_of := Home;
     fetchInitialData := None |}.

(** The anchor of a navigation link carries the active class. *)
Definition has_active_class (n : node) : bool :=
  match n with
  | Elem _ props _ => bool_decide (is_Some (assoc "className" props))
  | _ => false
  end.

Definition link_to (l : language) : string := "/popular/" +:+ param l.

Definition nullish (v : value) : bool :=
  match v with
  | VUndefined | VNull => true
  | _ => false
  end.

(** An array element the Grid view can render: neither the element nor its
    [owner] is undefined or null. *)
Definition entry_ok (v : value) : bool :=
  negb (nullish v)
  && match get v "owner" with
     | Ok owner => negb (nullish owner)
     | Throw _ => false
     end.

(** The anchors of the navigation list: the children of its items. *)
Definition anchors (n : node) : list node :=
  match n with
  | Elem _ _ items =>
      flat_map (fun item => match item with
                            | Elem _ _ children => children
                            | _ => []
                            end) items
  | _ => []
  end.

Definition link_active (pathname : string) (l : language) : bool :=
  bool_decide (is_Some (match_compiled pathname (compileLiteral (link_to l)) VUndefined)).


Definition ascii7 (c : ascii) : bool := (N_of_ascii c <? 128)%N.

(** * Properties *)

(** ** Strings *)

#[local] Arguments String.append : simpl nomatch.

Lemma append_assoc (a b c : string) : (a +:+ b) +:+ c = a +:+ (b +:+ c).
Proof. induction a as [|x a IH]; simpl; [reflexivity | now f_equal]. Qed.

Lemma escape_with_app keep (a b : string) :
  escape_with keep (a +:+ b) = escape_with keep a +:+ escape_with keep b.
Proof.
  induction a as [|x a IH]; simpl; [reflexivity |].
  rewrite IH. destruct (keep x); simpl; reflexivity.
Qed.

Lemma split_nonempty sep s : split sep s ≠ [].
Proof.
  destruct s as [|c s]; simpl; [discriminate |].
  destruct (Ascii.eqb c sep); [discriminate |].
  destruct (split sep s); discriminate.
Qed.

Lemma split_no_sep sep s : string_mem sep s = false → split sep s = [s].
Proof.
  unfold string_mem. induction s as [|c s IH]; simpl; [reflexivity |].
  intros [Hc Hs]%orb_false_elim.
  rewrite Ascii.eqb_sym in Hc. rewrite Hc, (IH Hs). reflexivity.
Qed.

Lemma split_snoc sep prefix seg :
  string_mem sep seg = false →
  split sep (prefix +:+ String sep seg) = split sep prefix ++ [seg].
Proof.
  intros Hseg. induction prefix as [|c p IH]; simpl.
  - rewrite Ascii.eqb_refl, (split_no_sep _ _ Hseg). reflexivity.
  - destruct (Ascii.eqb c sep); rewrite IH; [reflexivity |].
    pose proof (split_nonempty sep p) as Hne.
    destruct (split sep p); [contradiction | reflexivity].
Qed.

Lemma pop_split_last prefix seg :
  string_mem "/" seg = false →
  pop (split "/" (prefix +:+ "/" +:+ seg)) = Some seg.
Proof. intros H. simpl. rewrite (split_snoc _ _ _ H). apply last_snoc. Qed.

(** [pop] after [split] is never undefined. *)
Lemma pop_split_defined s : is_Some (pop (split "/" s)).
Proof.
  unfold pop. destruct (split "/" s) as [|x l] eqn:E.
  - now apply split_nonempty in E.
  - rewrite last_cons. destruct (last l); eauto.
Qed.

(** Each piece of a split string is free of the separator. *)
Lemma split_pieces sep s : Forall (fun p => string_mem sep p = false) (split sep s).
Proof.
  induction s as [|c s IH]; simpl; [repeat constructor |].
  destruct (Ascii.eqb c sep) eqn:E.
  - constructor; [reflexivity | exact IH].
  - destruct (split sep s) as [|p l]; [repeat constructor; unfold string_mem; simpl|].
    + rewrite Ascii.eqb_sym, E. reflexivity.
    + inversion IH; subst. constructor; [| assumption].
      unfold string_mem in *. simpl. rewrite Ascii.eqb_sym, E. assumption.
Qed.

(** ** Own properties of an object *)

Lemma assoc_In k v fs :
  List.NoDup (map fst fs) → In (k, v) fs → assoc k fs = Some v.
Proof.
  induction fs as [|[k' v'] fs IH]; simpl; [contradiction |].
  intros Hnd [[= -> ->] | Hin].
  - now rewrite String.eqb_refl.
  - inversion Hnd as [| ? ? Hk Hnd']; subst.
    destruct (String.eqb_spec k k') as [-> | _]; [| now apply IH].
    exfalso. apply Hk. apply in_map_iff. now exists (k', v).
Qed.

Lemma assoc_not_In k fs : ¬ In k (map fst fs) → assoc k fs = None.
Proof.
  induction fs as [|[k' v'] fs IH]; simpl; [reflexivity |].
  intros H. destruct (String.eqb_spec k k') as [-> | _]; [tauto |].
  apply IH. tauto.
Qed.

(** ** The route table *)

(** C3, as stated: the table does not have five entries. *)
Lemma routes_not_five : length routes ≠ 5%nat.
Proof. discriminate. Qed.

(** C3, amended: the route table is a constant list of exactly two route
    descriptors, in this order: the home route, with the pattern of the root
    path, the [exact] flag set and no data loader, and the grid route, with
    the pattern /popular/:id, no [exact] flag and a data loader, which calls
    the Data Loader on the last segment of the path it is given. *)
Theorem routes_two_entries :
  length routes = 2%nat
  ∧ map path routes = ["/"; "/popular/:id"]
  ∧ map component_of routes = [Home; Grid]
  ∧ map exact routes = [VStr "true"; VUndefined]
  ∧ map (fun r => end_of (exact r)) routes = [true; false]
  ∧ map fetchInitialData routes = [None; Some popular_fetchInitialData]
  ∧ (∀ net path,
       popular_fetchInitialData path net
       = fetchPopularRepos net (pop (split "/" (default EmptyString path))))
  ∧ (∀ p, matchPath p (nth 0 routes grid_route) = Some [] ↔ (p = EmptyString ∨ p = "/"))
  ∧ matchPath "/popular/rust/top" (nth 1 routes home_route) = Some [("id", "rust")].
Proof.
  repeat split; try reflexivity.
  - intros H. change (nth 0 routes grid_route) with home_route in H.
    unfold matchPath, match_compiled in H.
    change (compilePath (path home_route)) with (@nil segment) in H.
    change (end_of (exact home_route)) with true in H.
    destruct p as [|c p]; [now left | right].
    simpl split in H. destruct (Ascii.eqb c "/") eqn:E.
    + apply Ascii.eqb_eq in E as ->.
      destruct p as [|d p]; [reflexivity |]. exfalso.
      simpl split in H. pose proof (split_nonempty "/" p) as Hne.
      destruct (Ascii.eqb d "/").
      * destruct (split "/" p); [contradiction | discriminate].
      * destruct (split "/" p) as [|x [|y l]]; [contradiction | |]; discriminate.
    + destruct (split "/" p); discriminate.
  - intros [-> | ->]; reflexivity.
Qed.

(** ** The Data Loader *)

Lemma encodedURI_template (language : string) :
  encodedURI (Some language)
  = "https://api.github.com/search/repositories?q=stars:%3E1+language:"
    +:+ encodeURI language +:+ "&sort=stars&order=desc&type=Repositories".
Proof.
  unfold encodedURI, endpoint, encodeURI. simpl default.
  rewrite !escape_with_app. reflexivity.
Qed.

Lemma fetchPopularRepos_requests net language :
  ∃ rest, fst (fetchPopularRepos net language) = EvFetch (encodedURI language) :: rest.
Proof.
  unfold fetchPopularRepos, fetch.
  destruct (net (encodedURI language)) as [e | [e | j]]; simpl;
    [eauto | eauto |].
  destruct (get j "items"); simpl; eauto.
Qed.



(** The loader, outcome by outcome. *)
Lemma fetchPopularRepos_outcome (net : network) (language : option string) :
  let url := encodedURI language in
  fetchPopularRepos net language =
    match net url with
    | NetworkFail e => ([EvFetch url; EvWarn e], Resolved VNull)
    | Responded (BadBody e) => ([EvFetch url; EvWarn e], Resolved VNull)
    | Responded (JsonBody body) =>
        match get body "items" with
        | Ok items => ([EvFetch url], Resolved items)
        | Throw e => ([EvFetch url; EvWarn e], Resolved VNull)
        end
    end
  ∧ ∃ v, snd (fetchPopularRepos net language) = Resolved v.
Proof.
  unfold fetchPopularRepos, fetch. simpl.
  destruct (net (encodedURI language)) as [e | [e | j]]; simpl; eauto.
  destruct (get j "items"); simpl; eauto.
Qed.

(** C10: the route's loader hands the last slash-separated segment of the
    path to the Data Loader.  For /popular/javascript this is javascript;
    for a path that ends in a slash it is the empty string, which is passed
    as such, so that the 'all' default is not applied and the request differs
    from the one for 'all'. *)
Theorem fetchInitialData_last_segment (net : network) (prefix seg : string) :
  string_mem "/" seg = false →
  popular_fetchInitialData (Some (prefix +:+ "/" +:+ seg)) net
  = fetchPopularRepos net (Some seg)
  ∧ popular_fetchInitialData (Some "/popular/javascript") net
    = fetchPopularRepos net (Some "javascript")
  ∧ popular_fetchInitialData (Some (prefix +:+ "/")) net
    = fetchPopularRepos net (Some EmptyString)
  ∧ encodedURI (Some EmptyString)
    = "https://api.github.com/search/repositories?q=stars:%3E1+language:&sort=stars&order=desc&type=Repositories"
  ∧ encodedURI (Some EmptyString) ≠ encodedURI None.
Proof.
  intros Hseg. unfold popular_fetchInitialData. simpl default.
  repeat split.
  - now rewrite (pop_split_last _ _ Hseg).
  - pose proof (pop_split_last prefix EmptyString eq_refl) as H.
    simpl in H. now rewrite H.
  - discriminate.
Qed.

Lemma fetchInitialData_last_segment_witness :
  string_mem "/" "javascript" = false
  ∧ popular_fetchInitialData (Some "/popular/javascript/")
      (fun _ => NetworkFail (NetworkError "offline"))
    = fetchPopularRepos (fun _ => NetworkFail (NetworkError "offline")) (Some EmptyString).
Proof.
  split; [reflexivity |].
  exact (proj1 (proj2 (proj2
    (fetchInitialData_last_segment (fun _ => NetworkFail (NetworkError "offline"))
       "/popular/javascript" "javascript" eq_refl)))).
Defined.
Lemma fetches_of_loader net language :
  filter is_fetch (fst (fetchPopularRepos net language)) = [EvFetch (encodedURI language)].
Proof.
  unfold fetchPopularRepos, fetch.
  destruct (net (encodedURI language)) as [e | [e | j]]; simpl; try reflexivity.
  destruct (get j "items"); reflexivity.
Qed.

Lemma loader_fulfils net language :
  ∃ v, snd (fetchPopularRepos net language) = Resolved v.
Proof.
  unfold fetchPopularRepos, fetch.
  destruct (net (encodedURI language)) as [e | [e | j]]; simpl; eauto.
  destruct (get j "items"); simpl; eauto.
Qed.

Lemma fetchInitialData_of_id net id :
  string_mem "/" id = false →
  popular_fetchInitialData (Some id) net = fetchPopularRepos net (Some id).
Proof.
  intros H. unfold popular_fetchInitialData. simpl default.
  now rewrite (split_no_sep _ _ H).
Qed.

(** ** The Grid view *)

Lemma Grid_constructor_phase isBrowser props w st w' :
  Grid_constructor isBrowser props w = Ok (st, w') →
  phase_of st = if truthy (repos st) then Ready else Loading.
Proof.
  unfold Grid_constructor, phase_of. destruct isBrowser.
  - intros [= <- _]. simpl. now destruct (truthy _).
  - destruct (get (staticContext props) "data") as [d|e]; simpl; [| discriminate].
    intros [= <- _]. simpl. now destruct (truthy _).
Qed.

(** C7: the Grid view starts Ready when data was supplied at mount and
    Loading otherwise: in the browser the data is what the rehydration slot
    holds (a list makes it Ready; an absent, undefined or null slot makes it
    Loading), on the server it is the [data] field of the static context.  On
    a changed route parameter the view becomes Loading and issues one Data
    Loader call, for the new parameter; when that call resolves it becomes
    Ready, holding what the call resolved to. *)
Theorem Grid_state_machine (net : network) (props nextProps : GridProps)
  (st : GridState) (old new : string) :
  props_fetchInitialData props = Some popular_fetchInitialData →
  match_params_id props = Some old →
  match_params_id nextProps = Some new →
  old ≠ new →
  string_mem "/" new = false →
  (∀ ps w, ∃ st0,
     Grid_constructor true ps w = Ok (st0, delete INITIAL_DATA w)
     ∧ repos st0 = default VUndefined (w !! INITIAL_DATA)
     ∧ phase_of st0
       = (if truthy (default VUndefined (w !! INITIAL_DATA)) then Ready else Loading)
     ∧ (∀ vs, w !! INITIAL_DATA = Some (VArr vs) → phase_of st0 = Ready)
     ∧ (w !! INITIAL_DATA = None ∨ w !! INITIAL_DATA = Some VUndefined
        ∨ w !! INITIAL_DATA = Some VNull → phase_of st0 = Loading))
  ∧ (∀ ps w fields, staticContext ps = VObj fields → ∃ st0,
       Grid_constructor false ps w = Ok (st0, w)
       ∧ (∀ data, List.NoDup (map fst fields) → In ("data", data) fields →
            repos st0 = data
            ∧ phase_of st0 = (if truthy data then Ready else Loading)
            ∧ (∀ vs, data = VArr vs → phase_of st0 = Ready)
            ∧ (data = VNull → phase_of st0 = Loading))
       ∧ (¬ In "data" (map fst fields) →
            repos st0 = VUndefined ∧ phase_of st0 = Loading))
  ∧ ∃ fx,
      componentWillReceiveProps props net st nextProps = Ok fx
      ∧ phase_of (pending fx) = Loading
      ∧ effects fx = fst (fetchPopularRepos net (Some new))
      ∧ filter is_fetch (effects fx) = [EvFetch (encodedURI (Some new))]
      ∧ phase_of (settled_state fx) = Ready
      ∧ snd (fetchPopularRepos net (Some new)) = Resolved (repos (settled_state fx)).
Proof.
  intros Hf Hold Hnew Hne Hslash. split; [| split].
  - intros ps w. eexists. split; [reflexivity |]. simpl. split; [reflexivity |].
    split; [unfold phase_of; simpl; now destruct (truthy _) |]. split.
    + intros vs ->. reflexivity.
    + intros [-> | [-> | ->]]; reflexivity.
  - intros ps w fields Hc. unfold Grid_constructor. rewrite Hc. simpl.
    eexists. split; [reflexivity |]. simpl. split.
    + intros data Hnd Hin. rewrite (assoc_In _ _ _ Hnd Hin). simpl.
      split; [reflexivity |]. unfold phase_of. simpl.
      split; [now destruct (truthy data) |]. split; now intros; subst.
    + intros Hnot. rewrite (assoc_not_In _ _ Hnot). split; reflexivity.
  - unfold componentWillReceiveProps, fetchRepos.
    rewrite Hold, Hnew, Hf, (fetchInitialData_of_id _ _ Hslash).
    rewrite bool_decide_eq_true_2 by congruence.
    pose proof (fetches_of_loader net (Some new)) as Hfetch.
    destruct (loader_fulfils net (Some new)) as [v Hv].
    destruct (fetchPopularRepos net (Some new)) as [ev s]. simpl in *. subst s.
    eexists. split; [reflexivity |]. simpl. auto.
Qed.

Lemma Grid_state_machine_witness :
  ∃ fx,
    componentWillReceiveProps (grid_props [("id", "javascript")] VUndefined)
      (fun _ => Responded (JsonBody (VObj [("items", VArr [react_json])])))
      {| repos := VArr []; loading := false |}
      (grid_props [("id", "rust")] VUndefined) = Ok fx
    ∧ phase_of (pending fx) = Loading
    ∧ filter is_fetch (effects fx) = [EvFetch (encodedURI (Some "rust"))]
    ∧ phase_of (settled_state fx) = Ready.
Proof.
  destruct (Grid_state_machine
              (fun _ => Responded (JsonBody (VObj [("items", VArr [react_json])])))
              (grid_props [("id", "javascript")] VUndefined)
              (grid_props [("id", "rust")] VUndefined)
              {| repos := VArr []; loading := false |}
              "javascript" "rust" eq_refl eq_refl eq_refl
              ltac:(discriminate) eq_refl)
    as [_ [_ [fx (H1 & H2 & _ & H4 & H5 & _)]]].
  exists fx. repeat split; assumption.
Defined.

Lemma traverse_entries vs rs :
  Forall2 represents vs rs → traverse Grid_entry vs = Ok (map entry rs).
Proof.
  induction 1 as [| v r vs rs (Hn & (o & Ho & Hl) & Hs & Hu) _ IH]; [reflexivity |].
  simpl. unfold Grid_entry at 1.
  rewrite Hn, Ho, Hs, Hu. simpl. rewrite Hl. simpl. rewrite IH. reflexivity.
Qed.

(** C9: in the Ready state, for a list of repository records, the Grid view
    renders one entry per record, in the order of the list, each showing the
    name as a link to the url, the owner login and the star count as they
    are in the record. *)
Theorem Grid_render_entries (vs : list value) (rs : list Repository) :
  Forall2 represents vs rs →
  Grid_render {| repos := VArr vs; loading := false |}
  = Ok (Elem "ul"
          [("style", VObj [("display", VStr "flex"); ("flexWrap", VStr "wrap")])]
          (map entry rs)).
Proof.
  intros H. unfold Grid_render. simpl. now rewrite (traverse_entries _ _ H).
Qed.

Lemma Grid_render_entries_witness :
  Forall2 represents [react_json] [react]
  ∧ Grid_render {| repos := VArr [react_json]; loading := false |}
    = Ok (Elem "ul"
            [("style", VObj [("display", VStr "flex"); ("flexWrap", VStr "wrap")])]
            [entry react]).
Proof.
  assert (H : Forall2 represents [react_json] [react]).
  { repeat constructor. exists (VObj [("login", VStr "facebook"); ("id", VNum 69631)]).
    split; reflexivity. }
  split; [exact H | exact (Grid_render_entries _ _ H)].
Defined.

(** With null at mount the Grid view is Loading and renders the loading
    heading. *)
Lemma Grid_mount_null isBrowser props w st w' :
  Grid_constructor isBrowser props w = Ok (st, w') →
  truthy (repos st) = false →
  Grid_render st = Ok LOADING.
Proof.
  intros H Hf. apply Grid_constructor_phase in H. rewrite Hf in H.
  unfold phase_of in H. unfold Grid_render. now destruct (loading st).
Qed.

(** C2, at the failing input: when the request of a client-side refetch
    fails, the loader resolves to null, [fetchRepos] stores it with the
    loading flag off, and [render] throws instead of returning the loading
    heading. *)
Theorem Grid_render_throws_after_failed_refetch (ps : params) (ctx : value)
  (st : GridState) (lang : option string) (e : error) :
  ∃ fx,
    fetchRepos (grid_props ps ctx) (fun _ => NetworkFail e) st lang = Ok fx
    ∧ settled_state fx = {| repos := VNull; loading := false |}
    ∧ Grid_render (settled_state fx)
      = Throw (TypeError "Cannot read property 'map' of null").
Proof. eexists. split; [reflexivity |]. split; reflexivity. Qed.
(** ** Route lookup *)

Lemma match_segments_params (P : string → Prop) end_ segs :
  ∀ pieces ps,
    Forall P pieces →
    match_segments end_ segs pieces = Some ps →
    Forall (fun kv => P (snd kv)) ps.
Proof.
  induction segs as [| [s | n] segs IH]; intros pieces ps HP; simpl.
  - intros Heq. assert (ps = []) as ->; [| constructor].
    destruct pieces as [| [| c s] [| q l]]; destruct end_; congruence.
  - destruct pieces as [| p l]; [discriminate |].
    destruct (String.eqb _ _); [| discriminate].
    inversion HP; subst. eauto.
  - destruct pieces as [| p l]; [discriminate |].
    destruct (String.eqb p EmptyString); [discriminate |].
    inversion HP; subst.
    destruct (match_segments end_ segs l) as [ps' |] eqn:E; [| discriminate].
    intros [= <-]. constructor; eauto.
Qed.

(** A route parameter never contains a slash. *)
Lemma matchPath_params_no_slash pathname r ps :
  matchPath pathname r = Some ps →
  Forall (fun kv => string_mem "/" (snd kv) = false) ps.
Proof.
  unfold matchPath, match_compiled.
  pose proof (split_pieces "/" pathname) as HP.
  destruct (split "/" pathname) as [| [| c s] pieces]; try discriminate.
  inversion HP; subst.
  apply (match_segments_params (fun p => string_mem "/" p = false)). assumption.
Qed.






(** ** The rehydration slot *)

(** C6, as stated: a page load at the home path, with the slot as the
    server document assigns it for the home route, mounts no Grid view and
    deletes nothing: the slot is still there after the load. *)
Lemma home_load_keeps_slot :
  hydrate (Text "Not found") "/" {[ INITIAL_DATA := VUndefined ]}
  = Ok (Elem "div" [] [Navbar "/"; Home_render], MHome,
        {[ INITIAL_DATA := VUndefined ]})
  ∧ ({[ INITIAL_DATA := VUndefined ]} : gmap string value) !! INITIAL_DATA
    = Some VUndefined.
Proof. split; reflexivity. Qed.

(** A slot that a load left in place is read by the first Grid mount that
    follows.  For the request /popular/?tab=1 the server matches the grid
    route on the URL and embeds the fetched list; the browser matches the
    pathname /popular/, mounts the not-found view and keeps the slot; after a
    navigation to /popular/rust the Grid view starts Ready with that list. *)
Lemma stale_slot_read_after_navigation :
  (∃ m,
     snd (app_get (Text "Not found")
            (fun _ => Responded (JsonBody (VObj [("items", VArr [react_json])])))
            "/popular/?tab=1")
     = Resolved {| markup := m; initial_data := VArr [react_json] |})
  ∧ hydrate (Text "Not found") "/popular/" {[ INITIAL_DATA := VArr [react_json] ]}
    = Ok (Elem "div" [] [Navbar "/popular/"; Text "Not found"], MNoMatch,
          {[ INITIAL_DATA := VArr [react_json] ]})
  ∧ ∃ props w',
      mount true {| pathname := "/popular/rust"; context := VUndefined |}
        {[ INITIAL_DATA := VArr [react_json] ]}
      = Ok (MGrid props {| repos := VArr [react_json]; loading := false |}, w').
Proof.
  split; [eexists; reflexivity |].
  split; [reflexivity |].
  eexists _, _. reflexivity.
Qed.

(** C6, amended: mounting the Grid view in the browser reads the slot and
    deletes it right after the read, so that the next Grid mount finds it
    absent and starts Loading; mounting the home or the not-found view
    leaves the globals as they are; in all cases no other global changes. *)
Theorem Grid_mount_consumes_slot (rt : router) (w : gmap string value) :
  ∃ m w',
    mount true rt w = Ok (m, w')
    ∧ match m with
      | MGrid _ st =>
          repos st = default VUndefined (w !! INITIAL_DATA)
          ∧ w' = delete INITIAL_DATA w
          ∧ w' !! INITIAL_DATA = None
          ∧ ∀ props,
              Grid_constructor true props w'
              = Ok ({| repos := VUndefined; loading := true |}, w')
      | _ => w' = w
      end
    ∧ ∀ k, k ≠ INITIAL_DATA → w' !! k = w !! k.
Proof.
  unfold mount.
  destruct (Switch (pathname rt) routes) as [[r ps] |]; [| eauto].
  destruct (component_of r); [eauto |].
  simpl. eexists _, _. split; [reflexivity |]. simpl.
  repeat split.
  - apply lookup_delete_eq.
  - intros props. unfold Grid_constructor.
    now rewrite lookup_delete_eq, delete_delete_eq.
  - intros k Hk. now apply lookup_delete_ne.
Qed.

(** ** Server and client markup *)

(** What the server renders depends neither on the request nor on the
    data. *)
Lemma server_render_constant NoMatch url data url' data' :
  server_render NoMatch url data = server_render NoMatch url' data'.
Proof. reflexivity. Qed.

Lemma markup_pieces_pair root tag props a b :
  markup_pieces root (Elem tag props [a; b]) =
  attempt pa <- markup_pieces false a in
  attempt pb <- markup_pieces false b in
  Ok [PMarkup ("<" +:+ tag +:+ attributes props
               +:+ (if root then reactroot else EmptyString) +:+ ">"
               +:+ join_pieces false (pa ++ pb)
               +:+ "</" +:+ tag +:+ ">")].
Proof.
  simpl. destruct (markup_pieces false a); simpl; [| reflexivity].
  destruct (markup_pieces false b); simpl; [| reflexivity].
  now rewrite app_nil_r.
Qed.

(** C1, at the failing input: for the path /popular/javascript and a list
    with one repository, the markup of the server render differs from the
    markup of the first client render of the same data, whatever the
    not-found view is. *)
Theorem server_markup_differs_from_client (NoMatch : node) :
  server_render NoMatch "/popular/javascript" (VArr [react_json])
  ≠ client_markup NoMatch "/popular/javascript"
      {[ INITIAL_DATA := VArr [react_json] ]}.
Proof.
  intros H. apply (f_equal (char_at 94)) in H.
  unfold server_render in H.
  change (App_render NoMatch false _ _ ∅)
    with (@Ok (node * mounted * gmap string value)
            (Elem "div" [] [Navbar "req.url"; NoMatch], MNoMatch, ∅)) in H.
  cbn [rbind fst] in H. unfold renderToString in H.
  rewrite markup_pieces_pair in H.
  destruct (markup_pieces false (Navbar "req.url")) as [nav | e] eqn:En;
    vm_compute in En; [| discriminate].
  injection En as <-.
  destruct (markup_pieces false NoMatch) as [ps | e];
    vm_compute in H; discriminate.
Qed.

(** * Further properties *)

(** ** Strings and the request URL *)

Lemma chars_app a b : chars (a +:+ b) = chars a ++ chars b.
Proof. induction a as [|x a IH]; simpl; [reflexivity | now f_equal]. Qed.

Lemma length_append (a b : string) :
  String.length (a +:+ b) = (String.length a + String.length b)%nat.
Proof. induction a as [|x a IH]; simpl; [reflexivity | now f_equal]. Qed.

Lemma append_cancel_r (a b t : string) : a +:+ t = b +:+ t → a = b.
Proof.
  revert b. induction a as [|x a IH]; intros [|y b] H; simpl in H.
  - reflexivity.
  - apply (f_equal String.length) in H. simpl in H. rewrite length_append in H. lia.
  - apply (f_equal String.length) in H. simpl in H. rewrite length_append in H. lia.
  - injection H as -> H. f_equal. now apply IH.
Qed.

Lemma escape_with_kept keep s :
  forallb keep (chars s) = true → escape_with keep s = s.
Proof.
  induction s as [|c s IH]; simpl; [reflexivity |].
  intros [Hc Hs]%andb_prop. rewrite Hc, (IH Hs). reflexivity.
Qed.

Lemma percent_chars c : forallb uri_char (chars (percent c)) = true.
Proof. destruct c as [[] [] [] [] [] [] [] []]; reflexivity. Qed.

Lemma unpercent_percent c :
  unpercent (hex_digit (nat_of_ascii c / 16)) (hex_digit (nat_of_ascii c mod 16)) = c.
Proof. destruct c as [[] [] [] [] [] [] [] []]; reflexivity. Qed.

Lemma percent_app c s :
  percent c +:+ s
  = String "%" (String (hex_digit (nat_of_ascii c / 16))
                  (String (hex_digit (nat_of_ascii c mod 16)) s)).
Proof. reflexivity. Qed.

Lemma single_app c (s : string) : String c EmptyString +:+ s = String c s.
Proof. reflexivity. Qed.

Lemma escape_with_inj keep a b :
  keep "%"%char = false → escape_with keep a = escape_with keep b → a = b.
Proof.
  intros Hp. revert b.
  induction a as [|x a IH]; intros [|y b] H; cbn [escape_with] in H.
  - reflexivity.
  - destruct (keep y); rewrite ?percent_app, ?single_app in H; discriminate.
  - destruct (keep x); rewrite ?percent_app, ?single_app in H; discriminate.
  - destruct (keep x) eqn:Kx, (keep y) eqn:Ky;
      rewrite ?percent_app, ?single_app in H.
    + injection H as -> H. f_equal. now apply IH.
    + injection H as -> _. congruence.
    + injection H as <- _. congruence.
    + injection H as H1 H2 H. f_equal; [| now apply IH].
      change (hex_digit (nat_of_ascii x / 16) = hex_digit (nat_of_ascii y / 16)) in H1.
      change (hex_digit (nat_of_ascii x mod 16) = hex_digit (nat_of_ascii y mod 16)) in H2.
      rewrite <- (unpercent_percent x), <- (unpercent_percent y). congruence.
Qed.

(** X1: [encodeURI] keeps the reserved characters, so a filter made of
    letters, digits, marks and reserved characters (an ampersand, a plus, a
    hash) is placed in the query as it is. *)
Theorem reserved_characters_not_escaped (language : string) :
  forallb uri_kept (chars language) = true →
  encodedURI (Some language)
  = "https://api.github.com/search/repositories?q=stars:%3E1+language:"
    +:+ language +:+ "&sort=stars&order=desc&type=Repositories".
Proof.
  intros H. rewrite encodedURI_template. unfold encodeURI.
  now rewrite (escape_with_kept _ _ H).
Qed.

Lemma reserved_characters_not_escaped_witness :
  forallb uri_kept (chars "c++&sort=forks#") = true
  ∧ encodedURI (Some "c++&sort=forks#")
    = "https://api.github.com/search/repositories?q=stars:%3E1+language:c++&sort=forks#&sort=stars&order=desc&type=Repositories".
Proof.
  split; [reflexivity |].
  exact (reserved_characters_not_escaped "c++&sort=forks#" eq_refl).
Defined.

(** X2: whatever the filter is, the request URL is made of URI characters
    only: those [encodeURI] keeps and the percent sign. *)
Theorem encodedURI_characters (language : option string) :
  forallb uri_char (chars (encodedURI language)) = true.
Proof.
  unfold encodedURI, encodeURI.
  induction (endpoint (default "all" language)) as [|c s IH]; [reflexivity |].
  simpl. rewrite chars_app, forallb_app, IH, andb_true_r.
  destruct (uri_kept c) eqn:K; [| apply percent_chars].
  simpl. unfold uri_char. now rewrite K.
Qed.

(** X3: the request URL determines the filter: two different filters (an
    absent one counting as 'all') never give the same URL. *)
Theorem encodedURI_injective (l1 l2 : option string) :
  default "all" l1 ≠ default "all" l2 → encodedURI l1 ≠ encodedURI l2.
Proof.
  intros Hne H. apply Hne. unfold encodedURI, encodeURI in H.
  apply escape_with_inj in H; [| reflexivity].
  unfold endpoint in H. apply String.app_inj in H.
  now apply append_cancel_r in H.
Qed.

Lemma encodedURI_injective_witness :
  default "all" (Some "c") ≠ default "all" (Some "c++")
  ∧ encodedURI (Some "c") ≠ encodedURI (Some "c++").
Proof.
  assert (H : default "all" (Some "c") ≠ default "all" (Some "c++"))
    by discriminate.
  split; [exact H | exact (encodedURI_injective (Some "c") (Some "c++") H)].
Defined.

(** ** Splitting a path *)

Lemma split_cons sep a b :
  string_mem sep a = false →
  split sep (a +:+ String sep b) = a :: split sep b.
Proof.
  unfold string_mem. induction a as [|c a IH]; simpl.
  - intros _. now rewrite Ascii.eqb_refl.
  - intros [Hc Ha]%orb_false_elim. rewrite Ascii.eqb_sym in Hc.
    now rewrite Hc, (IH Ha).
Qed.

Lemma split_head sep c s :
  Ascii.eqb c sep = false → ∃ x l, split sep (String c s) = String c x :: l.
Proof.
  intros H. simpl. rewrite H.
  destruct (split sep s) as [|x l]; eauto.
Qed.

Lemma join_split s : join "/" (split "/" s) = s.
Proof.
  induction s as [|c s IH]; [reflexivity |].
  simpl split. destruct (Ascii.eqb c "/") eqn:E.
  - apply Ascii.eqb_eq in E as ->.
    pose proof (split_nonempty "/" s) as Hne.
    destruct (split "/" s) as [|x l]; [contradiction |].
    change (join "/" (EmptyString :: x :: l)) with (String "/" (join "/" (x :: l))).
    now rewrite IH.
  - pose proof (split_nonempty "/" s) as Hne.
    destruct (split "/" s) as [|x [|y l]]; [contradiction | |].
    + simpl in *. now subst.
    + change (join "/" (String c x :: y :: l))
        with (String c (join "/" (x :: y :: l))).
      now rewrite IH.
Qed.

Lemma join_snoc l seg :
  join "/" (l ++ [seg]) = seg ∨ ∃ prefix, join "/" (l ++ [seg]) = prefix +:+ "/" +:+ seg.
Proof.
  induction l as [|x l IH]; [now left |]. right.
  destruct l as [|y l].
  - exists x. reflexivity.
  - change (join "/" ((x :: y :: l) ++ [seg]))
      with (x +:+ "/" +:+ join "/" ((y :: l) ++ [seg])).
    destruct IH as [-> | [p ->]].
    + now exists x.
    + exists (x +:+ "/" +:+ p). now rewrite !append_assoc.
Qed.

(** X4: whatever path the route's loader is given, an absent one included,
    the Data Loader receives a defined string: the part of the path after
    its last slash (the whole path when it has none), the empty string for
    an absent path. *)
Theorem fetchInitialData_argument (net : network) (path : option string) :
  ∃ seg,
    popular_fetchInitialData path net = fetchPopularRepos net (Some seg)
    ∧ string_mem "/" seg = false
    ∧ (default EmptyString path = seg
       ∨ ∃ prefix, default EmptyString path = prefix +:+ "/" +:+ seg)
    ∧ (path = None → seg = EmptyString).
Proof.
  unfold popular_fetchInitialData, pop.
  set (p := default EmptyString path).
  pose proof (split_pieces "/" p) as HF.
  pose proof (join_split p) as HJ.
  pose proof (split_nonempty "/" p) as Hne.
  destruct (split "/" p) as [|x l] using rev_ind; [contradiction |].
  rewrite last_snoc. exists x. split; [reflexivity |].
  apply Forall_app in HF as [_ HF]. inversion HF; subst.
  split; [assumption |]. split.
  - rewrite <- HJ. apply join_snoc.
  - intros ->. subst p. simpl in HJ.
    destruct l as [|y [|z l]]; simpl in HJ.
    + assumption.
    + destruct y; discriminate.
    + destruct y; discriminate.
Qed.

(** ** Routing *)

Lemma match_segments_nil_open l : match_segments false [] l = Some [].
Proof. destruct l as [|[|c s] [|y l]]; reflexivity. Qed.

(** X5: the server's route lookup and the switch of the App scan the same
    table the same way: for one and the same string they pick the same
    descriptor. *)
Theorem activeRoute_agrees_with_Switch (p : string) :
  activeRoute p = fst <$> Switch p routes.
Proof.
  unfold activeRoute. generalize routes as rs.
  induction rs as [|r rs IH]; [reflexivity |].
  cbn [find Switch]. destruct (matchPath p r) as [ps|].
  - reflexivity.
  - exact IH.
Qed.

Lemma append_empty_r (s : string) : s +:+ EmptyString = s.
Proof. induction s; simpl; [reflexivity | now f_equal]. Qed.

Lemma Switch_popular_exact id :
  id ≠ EmptyString →
  string_mem "/" id = false →
  Switch ("/popular/" +:+ id) routes = Some (grid_route, [("id", id)]).
Proof.
  intros Hid Hslash.
  unfold Switch, routes, matchPath, match_compiled.
  change ("/popular/" +:+ id)
    with (EmptyString +:+ String "/" ("popular" +:+ String "/" id)).
  rewrite split_cons by reflexivity. rewrite split_cons by reflexivity.
  rewrite (split_no_sep _ _ Hslash).
  simpl. destruct id; [contradiction | reflexivity].
Qed.

Lemma Switch_popular_prefix id rest :
  id ≠ EmptyString →
  string_mem "/" id = false →
  Switch ("/popular/" +:+ id +:+ "/" +:+ rest) routes
  = Some (grid_route, [("id", id)]).
Proof.
  intros Hid Hslash.
  unfold Switch, routes, matchPath, match_compiled.
  change ("/popular/" +:+ id +:+ "/" +:+ rest)
    with (EmptyString +:+ String "/" ("popular" +:+ String "/" (id +:+ String "/" rest))).
  rewrite split_cons by reflexivity. rewrite split_cons by reflexivity.
  rewrite (split_cons _ _ _ Hslash).
  simpl. destruct id; [contradiction |]. simpl.
  destruct (split "/" rest) as [|[|c s] [|y l]]; reflexivity.
Qed.

(** X6: a path made of /popular/, a non-empty parameter without slash and
    nothing more, or more after a further slash, selects the grid route, and
    the parameter comes back unchanged as [match.params.id]: the route is a
    prefix route. *)
Theorem popular_path_selects_Grid (id rest : string) :
  id ≠ EmptyString →
  string_mem "/" id = false →
  Switch ("/popular/" +:+ id) routes = Some (grid_route, [("id", id)])
  ∧ Switch ("/popular/" +:+ id +:+ "/" +:+ rest) routes
    = Some (grid_route, [("id", id)])
  ∧ In grid_route routes.
Proof.
  intros Hid Hslash. split; [| split].
  - now apply Switch_popular_exact.
  - now apply Switch_popular_prefix.
  - right. now left.
Qed.

Lemma popular_path_selects_Grid_witness :
  "rust" ≠ EmptyString
  ∧ string_mem "/" "rust" = false
  ∧ Switch "/popular/rust/whatever/else" routes = Some (grid_route, [("id", "rust")]).
Proof.
  assert (H1 : "rust" ≠ EmptyString) by discriminate.
  split; [exact H1 |]. split; [reflexivity |].
  exact (proj1 (proj2 (popular_path_selects_Grid "rust" "whatever/else" H1 eq_refl))).
Defined.

Lemma routes_eq : routes = [home_route; grid_route].
Proof. reflexivity. Qed.

Lemma Switch_some p rs r ps :
  Switch p rs = Some (r, ps) → In r rs ∧ matchPath p r = Some ps.
Proof.
  induction rs as [|r' rs IH]; [discriminate |].
  simpl. destruct (matchPath p r') as [ps'|] eqn:E.
  - intros [= <- <-]. auto.
  - intros H. destruct (IH H). auto.
Qed.

Lemma matchPath_home p ps :
  matchPath p home_route = Some ps → (p = EmptyString ∨ p = "/") ∧ ps = [].
Proof.
  unfold matchPath, match_compiled.
  change (compilePath (path home_route)) with (@nil segment).
  change (end_of (exact home_route)) with true.
  pose proof (join_split p) as HJ.
  destruct (split "/" p) as [|[|c s] [|[|d t] [|z l]]]; simpl; try discriminate;
    intros [= <-]; simpl in HJ; auto.
Qed.

Lemma match_segments_lit e s segs p ps :
  match_segments e (Lit s :: segs) (p :: ps)
  = if String.eqb (lower s) (lower p) then match_segments e segs ps else None.
Proof. reflexivity. Qed.

Lemma match_segments_param e n segs p ps :
  match_segments e (Param n :: segs) (p :: ps)
  = if String.eqb p EmptyString then None
    else option_map (cons (n, p)) (match_segments e segs ps).
Proof. reflexivity. Qed.

Lemma matchPath_grid p ps :
  matchPath p grid_route = Some ps →
  ∃ id, ps = [("id", id)] ∧ id ≠ EmptyString ∧ string_mem "/" id = false.
Proof.
  intros H. pose proof (matchPath_params_no_slash _ _ _ H) as HF.
  unfold matchPath, match_compiled in H.
  change (compilePath (path grid_route)) with [Lit "popular"; Param "id"] in H.
  change (end_of (exact grid_route)) with false in H.
  destruct (split "/" p) as [|[|c s] pieces]; try discriminate.
  destruct pieces as [|a [|b rest]]; [discriminate | |];
    rewrite match_segments_lit in H;
    destruct (String.eqb (lower "popular") (lower a)); try discriminate.
  rewrite match_segments_param, match_segments_nil_open in H.
  destruct (String.eqb b EmptyString) eqn:Eb; [discriminate |].
  simpl in H. injection H as <-.
  exists b. split; [reflexivity |]. split.
  - intros ->. discriminate.
  - now inversion HF.
Qed.

(** X7: the home route is exact: the switch selects it for the root path
    (or the empty path) and for no other path. *)
Theorem Home_only_at_root (p : string) :
  (∃ ps, Switch p routes = Some (home_route, ps))
  ↔ (p = EmptyString ∨ p = "/").
Proof.
  split.
  - intros [ps H]. apply Switch_some in H as [_ H].
    now apply matchPath_home in H.
  - intros [-> | ->]; exists []; reflexivity.
Qed.

(** X8: whenever the App mounts the Grid view, on the server or in the
    browser, its props carry a non-empty route parameter [id] without slash,
    the loader of the route table and the static context of the router. *)
Theorem mounted_Grid_props (isBrowser : bool) (rt : router)
  (w w' : gmap string value) (props : GridProps) (st : GridState) :
  mount isBrowser rt w = Ok (MGrid props st, w') →
  ∃ id,
    match_params_id props = Some id
    ∧ id ≠ EmptyString
    ∧ string_mem "/" id = false
    ∧ props_fetchInitialData props = Some popular_fetchInitialData
    ∧ staticContext props = context rt.
Proof.
  unfold mount.
  destruct (Switch (pathname rt) routes) as [[r ps]|] eqn:E; [| discriminate].
  apply Switch_some in E as [Hin Hm].
  destruct Hin as [<- | [<- | []]]; simpl; [discriminate |].
  apply (matchPath_grid (pathname rt) ps) in Hm as (id & -> & Hid & Hslash).
  destruct (Grid_constructor _ _ _) as [[st0 w0]|e]; simpl; [| discriminate].
  intros [= <- _ _]. exists id. simpl. auto.
Qed.

Lemma mounted_Grid_props_witness :
  ∃ props st w',
    mount true {| pathname := "/popular/rust"; context := VUndefined |} ∅
    = Ok (MGrid props st, w')
    ∧ match_params_id props = Some "rust".
Proof.
  eexists _, _, _. split; [reflexivity |].
  destruct (mounted_Grid_props true
              {| pathname := "/popular/rust"; context := VUndefined |} ∅ _ _ _ eq_refl)
    as (id & H & _).
  reflexivity.
Defined.

(** ** The server entry *)

Lemma then_of_result_events {A B} (p : Promise A) (g : A → result B) :
  fst (then_ p (fun a => of_result (g a))) = fst p.
Proof.
  destruct p as [ev [a|e]]; simpl; [| reflexivity].
  destruct (g a); simpl; apply app_nil_r.
Qed.

Lemma activeRoute_cases url :
  activeRoute url = None ∨ activeRoute url = Some home_route
  ∨ activeRoute url = Some grid_route.
Proof.
  unfold activeRoute. rewrite routes_eq. cbn [find].
  destruct (bool_decide _); [auto |].
  destruct (bool_decide _); auto.
Qed.

(** X9: handling one request, the server sends at most one outbound
    request: none when the URL selects the home route or no route, and one
    when it selects the grid route, for the last segment of [req.path]. *)
Theorem server_requests (NoMatch : node) (net : network) (url : string) :
  filter is_fetch (fst (app_get NoMatch net url))
  = match component_of <$> activeRoute url with
    | Some Grid => [EvFetch (encodedURI (pop (split "/" (req_path url))))]
    | _ => []
    end.
Proof.
  unfold app_get. rewrite then_of_result_events. unfold promise.
  destruct (activeRoute_cases url) as [-> | [-> | ->]]; try reflexivity.
  simpl. unfold popular_fetchInitialData. simpl default.
  apply fetches_of_loader.
Qed.

(** X10: no outcome of the network fails a request: the data promise is
    always fulfilled, and the response is the document with that data unless
    rendering itself throws. *)
Theorem server_survives_network (NoMatch : node) (net : network) (url : string) :
  ∃ data,
    snd (promise net url) = Resolved data
    ∧ snd (app_get NoMatch net url)
      = match server_render NoMatch url data with
        | Ok m => Resolved {| markup := m; initial_data := data |}
        | Throw e => Rejected e
        end.
Proof.
  unfold app_get.
  assert (H : ∃ data, snd (promise net url) = Resolved data).
  { unfold promise.
    destruct (activeRoute_cases url) as [-> | [-> | ->]]; simpl; eauto.
    apply loader_fulfils. }
  destruct H as [data H]. exists data. split; [assumption |].
  destruct (promise net url) as [ev s]. simpl in H. subst s. simpl.
  destruct (server_render NoMatch url data); reflexivity.
Qed.

Lemma req_path_query a q :
  string_mem "?" a = false → req_path (a +:+ String "?" q) = a.
Proof.
  unfold string_mem. induction a as [|c a IH]; cbn -[Ascii.eqb].
  - reflexivity.
  - intros [Hc Ha]%orb_false_elim. rewrite Ascii.eqb_sym in Hc.
    now rewrite Hc, (IH Ha).
Qed.

Lemma split_popular t :
  split "/" ("/popular/" +:+ t) = EmptyString :: "popular" :: split "/" t.
Proof.
  change ("/popular/" +:+ t)
    with (EmptyString +:+ String "/" ("popular" +:+ String "/" t)).
  rewrite split_cons by reflexivity. now rewrite split_cons by reflexivity.
Qed.

Lemma matchPath_of_pieces p a b rest :
  split "/" p = EmptyString :: a :: b :: rest →
  lower a = "popular" →
  b ≠ EmptyString →
  matchPath p home_route = None ∧ matchPath p grid_route = Some [("id", b)].
Proof.
  intros Hs Ha Hb. unfold matchPath, match_compiled. rewrite Hs.
  change (compilePath (path home_route)) with (@nil segment).
  change (compilePath (path grid_route)) with [Lit "popular"; Param "id"].
  change (end_of (exact home_route)) with true.
  change (end_of (exact grid_route)) with false.
  split; [now destruct a |].
  rewrite match_segments_lit, Ha, match_segments_param, match_segments_nil_open.
  destruct b; [contradiction | reflexivity].
Qed.

Lemma activeRoute_grid p ps :
  matchPath p home_route = None →
  matchPath p grid_route = Some ps →
  activeRoute p = Some grid_route.
Proof.
  intros H1 H2. unfold activeRoute. rewrite routes_eq. cbn [find].
  now rewrite H1, H2.
Qed.

(** X11: the query string of a request does not reach the Data Loader: for
    /popular/<id>?<query> the server matches the grid route on the whole URL
    and fetches for <id> alone. *)
Theorem server_ignores_query (net : network) (id query : string) :
  id ≠ EmptyString →
  string_mem "/" id = false →
  string_mem "?" id = false →
  promise net ("/popular/" +:+ id +:+ "?" +:+ query)
  = fetchPopularRepos net (Some id).
Proof.
  intros Hid Hslash Hq.
  assert (Ha : activeRoute ("/popular/" +:+ id +:+ "?" +:+ query) = Some grid_route).
  { destruct id as [|c id]; [contradiction |].
    destruct (split_head "/" c (id +:+ "?" +:+ query)) as (x & l & Hx).
    { unfold string_mem in Hslash. cbn -[Ascii.eqb] in Hslash.
      apply orb_false_elim in Hslash as [Hc _]. now rewrite Ascii.eqb_sym. }
    destruct (matchPath_of_pieces ("/popular/" +:+ String c id +:+ "?" +:+ query)
                "popular" (String c x) l) as [H1 H2].
    - rewrite split_popular. exact (f_equal (cons _) (f_equal (cons _) Hx)).
    - reflexivity.
    - discriminate.
    - exact (activeRoute_grid _ _ H1 H2). }
  unfold promise. rewrite Ha. simpl.
  change ("/popular/" +:+ id +:+ "?" +:+ query)
    with (("/popular/" +:+ id) +:+ String "?" query).
  rewrite req_path_query by exact Hq.
  unfold popular_fetchInitialData. simpl default.
  pose proof (pop_split_last "/popular" id Hslash) as HP.
  f_equal. exact HP.
Qed.

Lemma server_ignores_query_witness :
  "js" ≠ EmptyString
  ∧ promise (fun _ => NetworkFail (NetworkError "offline")) "/popular/js?page=2&x=a/b"
    = fetchPopularRepos (fun _ => NetworkFail (NetworkError "offline")) (Some "js").
Proof.
  assert (H : "js" ≠ EmptyString) by discriminate.
  split; [exact H |].
  exact (server_ignores_query (fun _ => NetworkFail (NetworkError "offline"))
           "js" "page=2&x=a/b" H eq_refl eq_refl).
Defined.

(** ** The Grid view, continued *)

Lemma fetchRepos_spec props net st lang f :
  props_fetchInitialData props = Some f →
  ∃ fx,
    fetchRepos props net st lang = Ok fx
    ∧ pending fx = {| repos := repos st; loading := true |}
    ∧ effects fx = fst (f lang net)
    ∧ settled_state fx
      = match snd (f lang net) with
        | Resolved r => {| repos := r; loading := false |}
        | Rejected _ => {| repos := repos st; loading := true |}
        end.
Proof.
  intros Hf. unfold fetchRepos. rewrite Hf.
  destruct (f lang net) as [ev s]. eexists. split; [reflexivity |]. simpl. auto.
Qed.

(** X12: once mounted, the Grid view fetches only when it has no data: with
    data from the rehydration slot [componentDidMount] does nothing; without
    it, it issues one Data Loader call for the route parameter, is Loading
    meanwhile and Ready once the call has resolved. *)
Theorem componentDidMount_fetches_without_data (net : network)
  (props : GridProps) (st : GridState) (id : string) :
  props_fetchInitialData props = Some popular_fetchInitialData →
  match_params_id props = Some id →
  string_mem "/" id = false →
  ∃ fx,
    componentDidMount props net st = Ok fx
    ∧ if truthy (repos st)
      then fx = idle st
      else phase_of (pending fx) = Loading
           ∧ effects fx = fst (fetchPopularRepos net (Some id))
           ∧ filter is_fetch (effects fx) = [EvFetch (encodedURI (Some id))]
           ∧ phase_of (settled_state fx) = Ready.
Proof.
  intros Hf Hid Hslash. unfold componentDidMount.
  destruct (truthy (repos st)); simpl; [eauto |].
  destruct (fetchRepos_spec props net st (match_params_id props) _ Hf)
    as (fx & -> & Hp & He & Hs).
  exists fx. split; [reflexivity |].
  rewrite Hid, (fetchInitialData_of_id _ _ Hslash) in He, Hs.
  rewrite Hp, He, Hs. repeat split.
  - apply fetches_of_loader.
  - destruct (loader_fulfils net (Some id)) as [v ->]. reflexivity.
Qed.

Lemma componentDidMount_fetches_without_data_witness :
  ∃ fx,
    componentDidMount (grid_props [("id", "rust")] VUndefined)
      (fun _ => NetworkFail (NetworkError "offline"))
      {| repos := VUndefined; loading := true |} = Ok fx
    ∧ filter is_fetch (effects fx) = [EvFetch (encodedURI (Some "rust"))].
Proof.
  destruct (componentDidMount_fetches_without_data
              (fun _ => NetworkFail (NetworkError "offline"))
              (grid_props [("id", "rust")] VUndefined)
              {| repos := VUndefined; loading := true |} "rust"
              eq_refl eq_refl eq_refl) as (fx & H1 & H2).
  exists fx. split; [exact H1 |]. simpl in H2. tauto.
Defined.

(** X13: on new props the Grid view fetches exactly when the route
    parameter has changed: with the same parameter it performs no effect and
    keeps its state. *)
Theorem componentWillReceiveProps_fetches_iff_changed (net : network)
  (props nextProps : GridProps) (st : GridState) :
  props_fetchInitialData props = Some popular_fetchInitialData →
  ∃ fx,
    componentWillReceiveProps props net st nextProps = Ok fx
    ∧ (effects fx = [] ↔ match_params_id nextProps = match_params_id props)
    ∧ (match_params_id nextProps = match_params_id props → fx = idle st).
Proof.
  intros Hf. unfold componentWillReceiveProps.
  destruct (decide (match_params_id nextProps = match_params_id props)) as [E | E].
  - rewrite bool_decide_eq_false_2 by tauto. exists (idle st). simpl. tauto.
  - rewrite bool_decide_eq_true_2 by assumption.
    destruct (fetchRepos_spec props net st (match_params_id nextProps) _ Hf)
      as (fx & -> & _ & He & _).
    exists fx. split; [reflexivity |]. split; [| tauto].
    split; [| tauto]. intros H0. rewrite H0 in He.
    unfold popular_fetchInitialData in He.
    destruct (fetchPopularRepos_requests net
                (pop (split "/" (default EmptyString (match_params_id nextProps)))))
      as [rest Hr].
    rewrite Hr in He. discriminate.
Qed.

Lemma componentWillReceiveProps_fetches_iff_changed_witness :
  ∃ fx,
    componentWillReceiveProps (grid_props [("id", "rust")] VUndefined)
      (fun _ => NetworkFail (NetworkError "offline"))
      {| repos := VArr []; loading := false |}
      (grid_props [("id", "rust")] VUndefined) = Ok fx
    ∧ fx = idle {| repos := VArr []; loading := false |}.
Proof.
  destruct (componentWillReceiveProps_fetches_iff_changed
              (fun _ => NetworkFail (NetworkError "offline"))
              (grid_props [("id", "rust")] VUndefined)
              (grid_props [("id", "rust")] VUndefined)
              {| repos := VArr []; loading := false |} eq_refl)
    as (fx & H1 & _ & H3).
  exists fx. split; [exact H1 | exact (H3 eq_refl)].
Defined.

Lemma Grid_entry_ok v : (∃ n, Grid_entry v = Ok n) ↔ entry_ok v = true.
Proof.
  unfold Grid_entry, entry_ok.
  destruct v as [| | b | n | s | vs | fs]; simpl;
    try (split; [intros [? ?]; discriminate | discriminate]).
  destruct (default VUndefined (assoc "owner" fs)); simpl;
    (split; [intros [? ?]; (discriminate || reflexivity) | (discriminate || eauto)]).
Qed.

Lemma traverse_entry_ok vs :
  (∃ ns, traverse Grid_entry vs = Ok ns) ↔ forallb entry_ok vs = true.
Proof.
  induction vs as [|v vs IH]; simpl; [split; eauto |].
  rewrite andb_true_iff, <- IH, <- Grid_entry_ok. split.
  - intros [ns H]. destruct (Grid_entry v); simpl in H; [| discriminate].
    destruct (traverse Grid_entry vs); simpl in H; [| discriminate]. eauto.
  - intros [[n ->] [ns ->]]. simpl. eauto.
Qed.

(** X14: [render] returns an element exactly when the view is loading, or
    its [repos] is an array none of whose elements is undefined or null or
    has an undefined or null [owner]; in every other state it throws. *)
Theorem Grid_render_succeeds_iff (st : GridState) :
  (∃ n, Grid_render st = Ok n)
  ↔ (loading st = true
     ∨ ∃ vs, repos st = VArr vs ∧ forallb entry_ok vs = true).
Proof.
  unfold Grid_render. destruct (loading st).
  - split; eauto.
  - split.
    + intros [n H]. right.
      destruct (repos st) as [| | b | k | s | vs | fs]; simpl in H; try discriminate.
      exists vs. split; [reflexivity |]. apply traverse_entry_ok.
      destruct (traverse Grid_entry vs); simpl in H; [eauto | discriminate].
    + intros [H | (vs & -> & H)]; [discriminate |].
      apply traverse_entry_ok in H as [ns Hns]. simpl. rewrite Hns. simpl. eauto.
Qed.

(** X15: a parsed body without an [items] field (an error message of the
    API) is no failure for the loader: a refetch resolves to undefined
    without any warning, the view stores it with the loading flag off, and
    [render] throws. *)
Theorem refetch_body_without_items (ps : params) (ctx : value) (st : GridState)
  (lang : option string) (fields : list (string * value)) :
  assoc "items" fields = None →
  ∃ fx,
    fetchRepos (grid_props ps ctx)
      (fun _ => Responded (JsonBody (VObj fields))) st lang = Ok fx
    ∧ filter (fun e => negb (is_fetch e)) (effects fx) = []
    ∧ settled_state fx = {| repos := VUndefined; loading := false |}
    ∧ ∃ e, Grid_render (settled_state fx) = Throw e.
Proof.
  intros H.
  destruct (fetchRepos_spec (grid_props ps ctx)
              (fun _ => Responded (JsonBody (VObj fields))) st lang _ eq_refl)
    as (fx & Hfx & _ & He & Hs).
  exists fx. split; [exact Hfx |].
  unfold popular_fetchInitialData, fetchPopularRepos, fetch in He, Hs.
  cbn -[assoc encodedURI] in He, Hs. rewrite H in Hs.
  rewrite He, Hs. repeat split. eexists. reflexivity.
Qed.

Lemma refetch_body_without_items_witness :
  assoc "items" [("message", VStr "API rate limit exceeded")] = None
  ∧ ∃ fx,
      fetchRepos (grid_props [("id", "rust")] VUndefined)
        (fun _ => Responded (JsonBody (VObj [("message", VStr "API rate limit exceeded")])))
        {| repos := VArr []; loading := false |} (Some "rust") = Ok fx
      ∧ settled_state fx = {| repos := VUndefined; loading := false |}.
Proof.
  split; [reflexivity |].
  destruct (refetch_body_without_items [("id", "rust")] VUndefined
              {| repos := VArr []; loading := false |} (Some "rust")
              [("message", VStr "API rate limit exceeded")] eq_refl)
    as (fx & H1 & _ & H3 & _).
  exists fx. split; assumption.
Defined.

(** X16: on the server the Grid view takes its data from the static context
    of the router and from nowhere else: mounted under a context object, it
    holds the [data] field of that object (undefined when there is none, and
    the view is then Loading) and leaves the globals untouched. *)
Theorem server_Grid_reads_static_context (rt : router) (w w' : gmap string value)
  (fields : list (string * value)) (props : GridProps) (st : GridState) :
  context rt = VObj fields →
  mount false rt w = Ok (MGrid props st, w') →
  w' = w
  ∧ repos st = default VUndefined (assoc "data" fields)
  ∧ loading st = negb (truthy (repos st))
  ∧ (assoc "data" fields = None → Grid_render st = Ok LOADING).
Proof.
  intros Hc. unfold mount.
  destruct (Switch (pathname rt) routes) as [[r ps]|]; [| discriminate].
  destruct (component_of r); [discriminate |].
  unfold Grid_constructor. simpl staticContext. rewrite Hc. simpl.
  intros [= Hp Hs Hw]. subst props st w'. simpl.
  split; [reflexivity |]. split; [reflexivity |]. split.
  - destruct (truthy (default VUndefined (assoc "data" fields))); reflexivity.
  - intros ->. reflexivity.
Qed.

Lemma server_Grid_reads_static_context_witness :
  ∃ props st,
    mount false {| pathname := "/popular/rust"; context := VObj [] |} ∅
    = Ok (MGrid props st, ∅)
    ∧ Grid_render st = Ok LOADING.
Proof.
  eexists _, _. split; [reflexivity |].
  exact (proj2 (proj2 (proj2
    (server_Grid_reads_static_context
       {| pathname := "/popular/rust"; context := VObj [] |} ∅ ∅ [] _ _
       eq_refl eq_refl))) eq_refl).
Defined.

(** ** The navigation list *)

Lemma NavLink_active p sty l cs :
  has_active_class (NavLink p sty (link_to l) cs) = link_active p l.
Proof.
  unfold NavLink, link_active.
  destruct (bool_decide _); reflexivity.
Qed.

Lemma anchors_Navbar p :
  anchors (Navbar p)
  = map (fun l => NavLink p (VObj [("fontWeight", VStr "bold")]) (link_to l)
                    [Expr (VStr (name l))]) languages.
Proof. reflexivity. Qed.

Lemma compile_link l :
  In l languages →
  compileLiteral (link_to l) = [Lit "popular"; Lit (param l)]
  ∧ lower (param l) = param l
  ∧ param l ≠ EmptyString.
Proof.
  intros H. simpl in H.
  repeat (destruct H as [<- | H]; [repeat split; discriminate |]).
  contradiction.
Qed.

Lemma param_inj l l' :
  In l languages → In l' languages → param l = param l' → l = l'.
Proof.
  intros H H'. simpl in H, H'.
  repeat (destruct H as [<- | H]);
    repeat (destruct H' as [<- | H']);
    try contradiction; try reflexivity; discriminate.
Qed.

Lemma lower_empty s : lower s = EmptyString → s = EmptyString.
Proof. now destruct s. Qed.

Lemma link_active_inv p l :
  In l languages →
  link_active p l = true →
  ∃ a b rest,
    split "/" p = EmptyString :: a :: b :: rest
    ∧ lower a = "popular"
    ∧ lower b = param l.
Proof.
  intros Hl H. destruct (compile_link l Hl) as (Hc & Hlow & _).
  unfold link_active in H. apply bool_decide_eq_true in H as [ps H].
  unfold match_compiled in H. rewrite Hc in H.
  change (end_of VUndefined) with false in H.
  destruct (split "/" p) as [|[|c s] pieces]; try discriminate.
  destruct pieces as [|a [|b rest]]; [discriminate | |];
    rewrite match_segments_lit in H;
    destruct (String.eqb (lower "popular") (lower a)) eqn:Ea; try discriminate.
  rewrite match_segments_lit in H.
  destruct (String.eqb (lower (param l)) (lower b)) eqn:Eb; [| discriminate].
  apply String.eqb_eq in Ea, Eb. exists a, b, rest.
  split; [reflexivity |]. split; [now symmetry | congruence].
Qed.

Lemma link_active_exclusive p l l' :
  In l languages → In l' languages →
  link_active p l = true → link_active p l' = true → l = l'.
Proof.
  intros Hl Hl' H H'.
  destruct (link_active_inv p l Hl H) as (a & b & rest & Hs & _ & Hb).
  destruct (link_active_inv p l' Hl' H') as (a' & b' & rest' & Hs' & _ & Hb').
  rewrite Hs in Hs'. injection Hs' as _ <- _.
  apply param_inj; congruence.
Qed.

(** X17: at every location at most one link of the navigation list is
    marked active. *)
Theorem Navbar_at_most_one_active (p : string) :
  (length (filter has_active_class (anchors (Navbar p))) ≤ 1)%nat.
Proof.
  pose proof (link_active_exclusive p) as Hex.
  rewrite anchors_Navbar. unfold languages. cbn [map].
  rewrite !filter_cons, filter_nil, !NavLink_active.
  repeat match goal with
         | |- context [link_active p ?l] =>
             let E := fresh "E" in destruct (link_active p l) eqn:E
         end;
    simpl; try lia;
    exfalso;
    match goal with
    | H1 : link_active p ?a = true, H2 : link_active p ?b = true |- _ =>
        assert (a = b) by (apply Hex; [simpl; tauto | simpl; tauto | exact H1 | exact H2]);
        discriminate
    end.
Qed.

(** X18: when a link of the navigation list is marked active, the switch
    has selected the grid route, and its parameter is the language of the
    link up to letter case. *)
Theorem active_link_means_Grid (p : string) (l : language) :
  In l languages →
  has_active_class
    (NavLink p (VObj [("fontWeight", VStr "bold")]) (link_to l) [Expr (VStr (name l))])
  = true →
  ∃ id, Switch p routes = Some (grid_route, [("id", id)]) ∧ lower id = param l.
Proof.
  intros Hl H. rewrite NavLink_active in H.
  destruct (link_active_inv p l Hl H) as (a & b & rest & Hs & Ha & Hb).
  destruct (compile_link l Hl) as (_ & _ & Hne).
  assert (Hb' : b ≠ EmptyString).
  { intros ->. simpl in Hb. congruence. }
  destruct (matchPath_of_pieces p a b rest Hs Ha Hb') as [H1 H2].
  exists b. split; [| assumption].
  rewrite routes_eq. cbn [Switch]. now rewrite H1, H2.
Qed.

Lemma active_link_means_Grid_witness :
  ∃ id, Switch "/Popular/RUST/top" routes = Some (grid_route, [("id", id)])
        ∧ lower id = "rust".
Proof.
  exact (active_link_means_Grid "/Popular/RUST/top"
           {| name := "Rust"; param := "rust" |}
           ltac:(simpl; tauto) eq_refl).
Defined.

(** X19: following a link of the navigation list leads to a request for its
    language: at the target of the link the link is active, the switch
    selects the grid route with the language as parameter, and the Grid
    view, mounted in the browser without rehydration data, issues one Data
    Loader call for that language. *)
Theorem nav_link_round_trip (net : network) (l : language) :
  In l languages →
  link_active (link_to l) l = true
  ∧ Switch (link_to l) routes = Some (grid_route, [("id", param l)])
  ∧ ∃ props st w' fx,
      mount true {| pathname := link_to l; context := VUndefined |} ∅
      = Ok (MGrid props st, w')
      ∧ componentDidMount props net st = Ok fx
      ∧ filter is_fetch (effects fx) = [EvFetch (encodedURI (Some (param l)))].
Proof.
  intros Hl.
  assert (Hs : Switch (link_to l) routes = Some (grid_route, [("id", param l)])).
  { simpl in Hl.
    repeat (destruct Hl as [<- | Hl]; [reflexivity |]). contradiction. }
  assert (Hslash : string_mem "/" (param l) = false).
  { simpl in Hl.
    repeat (destruct Hl as [<- | Hl]; [reflexivity |]). contradiction. }
  split; [| split; [exact Hs |]].
  - simpl in Hl.
    repeat (destruct Hl as [<- | Hl]; [reflexivity |]). contradiction.
  - unfold mount. simpl pathname. rewrite Hs. simpl.
    destruct (fetchRepos_spec (grid_props [("id", param l)] VUndefined) net
                {| repos := VUndefined; loading := true |} (Some (param l)) _ eq_refl)
      as (fx & Hfx & _ & He & _).
    eexists _, _, _, fx. split; [reflexivity |].
    split; [exact Hfx |].
    rewrite He, (fetchInitialData_of_id _ _ Hslash). apply fetches_of_loader.
Qed.

Lemma nav_link_round_trip_witness :
  In {| name := "Go"; param := "golang" |} languages
  ∧ Switch "/popular/golang" routes = Some (grid_route, [("id", "golang")]).
Proof.
  assert (H : In {| name := "Go"; param := "golang" |} languages)
    by (simpl; tauto).
  split; [exact H |].
  exact (proj1 (proj2 (nav_link_round_trip
                         (fun _ => NetworkFail (NetworkError "offline")) _ H))).
Defined.

(** ** Rehydration *)

(** X20: the first client render of a grid path with a list in the
    rehydration slot shows the entries of that list, in order, consumes the
    slot, and needs no request: [componentDidMount] does nothing. *)
Theorem hydrate_renders_payload (NoMatch : node) (net : network) (id : string)
  (vs : list value) (rs : list Repository) (w : gmap string value) :
  id ≠ EmptyString →
  string_mem "/" id = false →
  w !! INITIAL_DATA = Some (VArr vs) →
  Forall2 represents vs rs →
  ∃ props,
    hydrate NoMatch ("/popular/" +:+ id) w
    = Ok (Elem "div" []
            [Navbar ("/popular/" +:+ id);
             Elem "ul"
               [("style", VObj [("display", VStr "flex"); ("flexWrap", VStr "wrap")])]
               (map entry rs)],
          MGrid props {| repos := VArr vs; loading := false |},
          delete INITIAL_DATA w)
    ∧ componentDidMount props net {| repos := VArr vs; loading := false |}
      = Ok (idle {| repos := VArr vs; loading := false |}).
Proof.
  intros Hid Hslash Hw Hrs.
  unfold hydrate, App_render, mount. cbn [pathname].
  rewrite (Switch_popular_exact id Hid Hslash).
  cbn [component_of grid_route]. unfold Grid_constructor. rewrite Hw.
  assert (HR : Grid_render {| repos := VArr vs; loading := false |}
               = Ok (Elem "ul"
                       [("style", VObj [("display", VStr "flex"); ("flexWrap", VStr "wrap")])]
                       (map entry rs))).
  { unfold Grid_render. simpl. now rewrite (traverse_entries _ _ Hrs). }
  cbn [default rbind fst snd view].
  change (Grid_render _) with (Grid_render {| repos := VArr vs; loading := false |}).
  rewrite HR. cbn [rbind].
  eexists. split; reflexivity.
Qed.

Lemma hydrate_renders_payload_witness :
  ∃ props,
    hydrate (Text "Not found") "/popular/javascript"
      {[ INITIAL_DATA := VArr [react_json] ]}
    = Ok (Elem "div" []
            [Navbar "/popular/javascript";
             Elem "ul"
               [("style", VObj [("display", VStr "flex"); ("flexWrap", VStr "wrap")])]
               [entry react]],
          MGrid props {| repos := VArr [react_json]; loading := false |},
          delete INITIAL_DATA {[ INITIAL_DATA := VArr [react_json] ]}).
Proof.
  assert (H : Forall2 represents [react_json] [react]).
  { repeat constructor. exists (VObj [("login", VStr "facebook"); ("id", VNum 69631)]).
    split; reflexivity. }
  destruct (hydrate_renders_payload (Text "Not found")
              (fun _ => NetworkFail (NetworkError "offline")) "javascript"
              [react_json] [react] {[ INITIAL_DATA := VArr [react_json] ]}
              ltac:(discriminate) eq_refl eq_refl H) as (props & H1 & _).
  exists props. exact H1.
Defined.

(** ** The Data Loader on arbitrary strings *)

Lemma kept_is_ascii c : uri_kept c = true → (N_of_ascii c < 128)%N.
Proof.
  destruct c as [[] [] [] [] [] [] [] []]; vm_compute; intros H;
    first [reflexivity | discriminate H].
Qed.

Lemma high_octet_escaped n :
  (128 ≤ n < 256)%N → uri_kept (ascii_of_N n) = false.
Proof.
  intros Hn. destruct (uri_kept (ascii_of_N n)) eqn:E; [| reflexivity].
  apply kept_is_ascii in E. rewrite N_ascii_embedding in E by lia. exfalso. lia.
Qed.

Lemma encodeURI_cons_escaped c s :
  uri_kept c = false → encodeURI (String c s) = percent c +:+ encodeURI s.
Proof. intros H. unfold encodeURI. simpl. now rewrite H. Qed.

Lemma utf8_escaped v s :
  (128 ≤ v)%N → encodeURI (utf8 v +:+ s) = percent_all (utf8 v) +:+ encodeURI s.
Proof.
  intros Hv. unfold utf8.
  destruct (N.ltb_spec v 128); [lia |].
  assert (H64 : ∀ x, (128 ≤ 128 + x mod 64 < 256)%N).
  { intros x. pose proof (N.mod_lt x 64 ltac:(lia)) as Hm.
    revert Hm. generalize (x mod 64)%N. intros m Hm. lia. }
  assert (H32 : ∀ x, (128 ≤ 192 + x mod 32 < 256)%N).
  { intros x. pose proof (N.mod_lt x 32 ltac:(lia)) as Hm.
    revert Hm. generalize (x mod 32)%N. intros m Hm. lia. }
  assert (H16 : ∀ x, (128 ≤ 224 + x mod 16 < 256)%N).
  { intros x. pose proof (N.mod_lt x 16 ltac:(lia)) as Hm.
    revert Hm. generalize (x mod 16)%N. intros m Hm. lia. }
  assert (H8 : ∀ x, (128 ≤ 240 + x mod 8 < 256)%N).
  { intros x. pose proof (N.mod_lt x 8 ltac:(lia)) as Hm.
    revert Hm. generalize (x mod 8)%N. intros m Hm. lia. }
  destruct (v <? 2048)%N; [| destruct (v <? 65536)%N];
    cbn [String.append percent_all];
    rewrite ?encodeURI_cons_escaped by (apply high_octet_escaped; auto);
    rewrite ?append_assoc; reflexivity.
Qed.

Lemma list_ind2 (P : list N → Prop) :
  P [] →
  (∀ c, P [c]) →
  (∀ c k rest, P rest → P (k :: rest) → P (c :: k :: rest)) →
  ∀ l, P l.
Proof.
  intros H0 H1 H2 l.
  assert (H : P l ∧ ∀ c, P (c :: l)); [| tauto].
  induction l as [|k rest [IH1 IH2]]; split; auto.
Qed.

Lemma low_units c : (c < 128)%N → is_low c = false ∧ is_high c = false.
Proof.
  intros H. unfold is_low, is_high.
  destruct (N.leb_spec 56320 c), (N.leb_spec 55296 c); simpl; split;
    reflexivity || (exfalso; lia).
Qed.

Lemma utf8_low c : (c < 128)%N → utf8 c = String (ascii_of_N c) EmptyString.
Proof. intros H. unfold utf8. now destruct (N.ltb_spec c 128); [| lia]. Qed.

(** [Encode] throws exactly on the sequences that have no UTF-8 form, and on
    the others it is the byte-wise [encodeURI] of that form. *)
Lemma Encode_to_utf8 units :
  Encode units
  = match to_utf8 units with
    | Some s => Ok (encodeURI s)
    | None => Throw malformed
    end.
Proof.
  assert (Hone : ∀ c rest,
    Encode rest = match to_utf8 rest with
                  | Some s => Ok (encodeURI s) | None => Throw malformed end →
    is_high c = false →
    Encode (c :: rest) = match to_utf8 (c :: rest) with
                         | Some s => Ok (encodeURI s) | None => Throw malformed end).
  { intros c rest IH Hh. cbn [Encode to_utf8]. rewrite Hh.
    destruct (unit_kept c) eqn:K.
    - unfold unit_kept in K. apply andb_prop in K as [Hc Hk].
      apply N.ltb_lt in Hc. destruct (low_units c Hc) as [-> _].
      rewrite IH, (utf8_low c Hc). destruct (to_utf8 rest); simpl; [| reflexivity].
      unfold encodeURI. simpl. now rewrite Hk.
    - destruct (is_low c); [reflexivity |]. rewrite IH.
      destruct (to_utf8 rest) as [s|]; simpl; [| reflexivity]. f_equal.
      destruct (N.ltb_spec c 128) as [Hc | Hc].
      + rewrite (utf8_low c Hc). unfold unit_kept in K.
        apply N.ltb_lt in Hc. rewrite Hc in K. simpl in K.
        rewrite single_app, (encodeURI_cons_escaped _ _ K).
        cbn [percent_all]. now rewrite append_empty_r.
      + symmetry. now apply utf8_escaped. }
  induction units as [| c | c k rest IH1 IH2] using list_ind2.
  - reflexivity.
  - destruct (is_high c) eqn:Hh; [| now apply Hone].
    cbn [Encode to_utf8]. rewrite Hh.
    destruct (unit_kept c) eqn:K; [| now destruct (is_low c)].
    unfold unit_kept in K. apply andb_prop in K as [Hc _].
    apply N.ltb_lt in Hc. destruct (low_units c Hc). congruence.
  - destruct (is_high c) eqn:Hh; [| now apply Hone].
    assert (K : unit_kept c = false).
    { destruct (unit_kept c) eqn:K; [| reflexivity].
      unfold unit_kept in K. apply andb_prop in K as [Hc _].
      apply N.ltb_lt in Hc. destruct (low_units c Hc). congruence. }
    cbn [Encode to_utf8]. rewrite Hh, K.
    destruct (is_low c); [reflexivity |].
    destruct (is_low k); [| reflexivity].
    rewrite IH1. destruct (to_utf8 rest) as [s|]; simpl; [| reflexivity].
    f_equal. symmetry. apply utf8_escaped. unfold code_point. lia.
Qed.

Lemma well_formed_to_utf8 units :
  well_formed units = match to_utf8 units with Some _ => true | None => false end.
Proof.
  induction units as [| c | c k rest IH1 IH2] using list_ind2.
  - reflexivity.
  - simpl. destruct (is_low c), (is_high c); reflexivity.
  - cbn [well_formed to_utf8] in *.
    destruct (is_low c); [reflexivity |]. destruct (is_high c).
    + destruct (is_low k); [| reflexivity]. rewrite IH1.
      now destruct (to_utf8 rest).
    + rewrite IH2. destruct (is_low k); [reflexivity |].
      destruct (is_high k).
      * destruct rest as [|j rest']; [reflexivity |].
        destruct (is_low j); [| reflexivity]. now destruct (to_utf8 rest').
      * now destruct (to_utf8 rest).
Qed.

Lemma to_utf8_ascii_prefix h l :
  forallb ascii7 (chars h) = true →
  to_utf8 (units_of h ++ l) = String.append h <$> to_utf8 l.
Proof.
  unfold chars. induction h as [|c h IH]; cbn [String.list_ascii_of_string forallb].
  - intros _. simpl. now destruct (to_utf8 l).
  - intros [Hc Hh]%andb_prop. apply N.ltb_lt in Hc.
    change (units_of (String c h) ++ l) with (N_of_ascii c :: (units_of h ++ l)).
    cbn [to_utf8]. destruct (low_units _ Hc) as [-> ->].
    rewrite (utf8_low _ Hc), ascii_N_embedding, (IH Hh).
    now destruct (to_utf8 l).
Qed.

Lemma to_utf8_units_of t :
  forallb ascii7 (chars t) = true → to_utf8 (units_of t) = Some t.
Proof.
  intros H. pose proof (to_utf8_ascii_prefix t [] H) as E.
  rewrite app_nil_r in E. rewrite E. simpl. now rewrite append_empty_r.
Qed.

Lemma to_utf8_lone_high c t :
  forallb ascii7 (chars t) = true →
  is_high c = true → to_utf8 (c :: units_of t) = None.
Proof.
  intros Ht Hc. cbn [to_utf8]. rewrite Hc.
  destruct (is_low c); [reflexivity |].
  destruct t as [|a t]; [reflexivity |].
  change (units_of (String a t)) with (N_of_ascii a :: units_of t).
  simpl in Ht. apply andb_prop in Ht as [Ha _]. apply N.ltb_lt in Ha.
  now destruct (low_units _ Ha) as [-> _].
Qed.

Lemma to_utf8_cons_low c r : is_low c = true → to_utf8 (c :: r) = None.
Proof. intros H. cbn [to_utf8]. now rewrite H. Qed.

Lemma to_utf8_cons_plain c r :
  is_low c = false → is_high c = false →
  to_utf8 (c :: r) = String.append (utf8 c) <$> to_utf8 r.
Proof. intros H1 H2. cbn [to_utf8]. now rewrite H1, H2. Qed.

Lemma to_utf8_cons_pair c k r :
  is_low c = false → is_high c = true →
  to_utf8 (c :: k :: r)
  = if is_low k then String.append (utf8 (code_point c k)) <$> to_utf8 r else None.
Proof. intros H1 H2. cbn [to_utf8]. now rewrite H1, H2. Qed.

Lemma to_utf8_ascii_suffix l t :
  forallb ascii7 (chars t) = true →
  to_utf8 (l ++ units_of t) = (fun s => s +:+ t) <$> to_utf8 l.
Proof.
  intros Ht.
  induction l as [| c | c k rest IH1 IH2] using list_ind2.
  - simpl. now apply to_utf8_units_of.
  - change ([c] ++ units_of t) with (c :: units_of t).
    destruct (is_low c) eqn:Hl; [now rewrite !to_utf8_cons_low |].
    destruct (is_high c) eqn:Hh.
    + rewrite (to_utf8_lone_high c t Ht Hh). cbn [to_utf8]. now rewrite Hl, Hh.
    + rewrite !to_utf8_cons_plain, (to_utf8_units_of t Ht) by assumption.
      simpl. now rewrite append_empty_r.
  - destruct (is_low c) eqn:Hl.
    { change ((c :: k :: rest) ++ units_of t) with (c :: (k :: rest) ++ units_of t).
      now rewrite !to_utf8_cons_low. }
    destruct (is_high c) eqn:Hh.
    + change ((c :: k :: rest) ++ units_of t) with (c :: k :: (rest ++ units_of t)).
      rewrite !to_utf8_cons_pair by assumption.
      destruct (is_low k); [| reflexivity]. rewrite IH1.
      destruct (to_utf8 rest); simpl; [| reflexivity]. now rewrite append_assoc.
    + change ((c :: k :: rest) ++ units_of t) with (c :: ((k :: rest) ++ units_of t)).
      rewrite !to_utf8_cons_plain by assumption. rewrite IH2.
      destruct (to_utf8 (k :: rest)); simpl; [| reflexivity].
      now rewrite append_assoc.
Qed.

Lemma to_utf8_endpoint l :
  to_utf8 (endpoint_units l) = endpoint <$> to_utf8 l.
Proof.
  unfold endpoint_units, endpoint.
  rewrite to_utf8_ascii_prefix by reflexivity.
  rewrite to_utf8_ascii_suffix by reflexivity.
  now destruct (to_utf8 l).
Qed.

(** On a well-formed string the Data Loader is [fetchPopularRepos] on its
    UTF-8 form; on any other it throws. *)
Lemma fetchPopularRepos_utf16_refines net language :
  fetchPopularRepos_utf16 net language
  = match to_utf8 (default (units_of "all") language) with
    | Some s => Ok (fetchPopularRepos net (Some s))
    | None => Throw malformed
    end.
Proof.
  unfold fetchPopularRepos_utf16.
  rewrite Encode_to_utf8, to_utf8_endpoint.
  now destruct (to_utf8 (default (units_of "all") language)).
Qed.

(** C5, as stated: on a language filter that holds a lone surrogate,
    [encodeURI] throws before the promise chain exists, and the Data Loader
    returns no promise at all. *)
Lemma fetchPopularRepos_throws_on_lone_surrogate :
  fetchPopularRepos_utf16 (fun _ => NetworkFail (NetworkError "offline"))
    (Some [55357%N])
  = Throw (URIError "URI malformed")
  ∧ well_formed [55357%N] = false.
Proof. split; reflexivity. Qed.

(** C5, amended: for every well-formed language filter (every surrogate part
    of a pair; an absent filter reads as 'all') and every outcome of the
    outbound request, the Data Loader returns a promise that is fulfilled,
    never rejected.  It sends one request, to the encoded URL.  On a
    transport error, on an unparsable body and on a body that is null (whose
    [items] cannot be read) it logs one warning and resolves to null; on a
    parsed object it logs nothing and resolves to the value of its [items]
    field, undefined when there is none; on any other parsed body it resolves
    to undefined. *)
Theorem fetchPopularRepos_fulfils (net : network) (language : option (list N)) :
  well_formed (default (units_of "all") language) = true →
  ∃ s url ev v,
    to_utf8 (default (units_of "all") language) = Some s
    ∧ Encode (endpoint_units (default (units_of "all") language)) = Ok url
    ∧ url = encodeURI (endpoint s)
    ∧ fetchPopularRepos_utf16 net language = Ok (EvFetch url :: ev, Resolved v)
    ∧ fetchPopularRepos net (Some s) = (EvFetch url :: ev, Resolved v)
    ∧ match net url with
      | NetworkFail e | Responded (BadBody e) => ev = [EvWarn e] ∧ v = VNull
      | Responded (JsonBody body) =>
          match body with
          | VObj fields =>
              ev = []
              ∧ (∀ items, List.NoDup (map fst fields) →
                          In ("items", items) fields → v = items)
              ∧ (¬ In "items" (map fst fields) → v = VUndefined)
          | VUndefined | VNull => (∃ e, ev = [EvWarn (TypeError e)]) ∧ v = VNull
          | VBool _ | VNum _ | VStr _ | VArr _ => ev = [] ∧ v = VUndefined
          end
      end.
Proof.
  intros Hwf. rewrite well_formed_to_utf8 in Hwf.
  destruct (to_utf8 (default (units_of "all") language)) as [s|] eqn:Es;
    [| discriminate].
  pose proof (fetchPopularRepos_utf16_refines net language) as Hr.
  rewrite Es in Hr.
  pose proof (Encode_to_utf8 (endpoint_units (default (units_of "all") language))) as He.
  rewrite to_utf8_endpoint, Es in He.
  change (endpoint <$> Some s) with (Some (endpoint s)) in He. cbv beta iota in He.
  destruct (fetchPopularRepos_outcome net (Some s)) as [Ho _].
  cbv zeta in Ho. change (encodedURI (Some s)) with (encodeURI (endpoint s)) in Ho.
  exists s, (encodeURI (endpoint s)).
  remember (encodeURI (endpoint s)) as url eqn:Hurl.
  destruct (net url) as [e | [e | body]].
  - exists [EvWarn e], VNull. rewrite Hr, Ho. auto 10.
  - exists [EvWarn e], VNull. rewrite Hr, Ho. auto 10.
  - destruct body as [| | b | n | t | vs | fields]; cbn [get] in Ho;
      rewrite Hr, Ho; eexists _, _;
      (split; [reflexivity |]); (split; [exact He |]); (split; [reflexivity |]);
      (split; [reflexivity |]); (split; [reflexivity |]); eauto.
    split; [reflexivity |]. split.
    + intros items Hnd Hin. now rewrite (assoc_In _ _ _ Hnd Hin).
    + intros Hnot. now rewrite (assoc_not_In _ _ Hnot).
Qed.

Lemma fetchPopularRepos_fulfils_witness :
  well_formed (units_of "rust") = true
  ∧ fetchPopularRepos_utf16
      (fun _ => Responded (JsonBody (VObj [("total_count", VNum 1);
                                           ("items", VArr [react_json])])))
      (Some (units_of "rust"))
    = Ok ([EvFetch "https://api.github.com/search/repositories?q=stars:%3E1+language:rust&sort=stars&order=desc&type=Repositories"],
          Resolved (VArr [react_json])).
Proof.
  split; [reflexivity |].
  destruct (fetchPopularRepos_fulfils
              (fun _ => Responded (JsonBody (VObj [("total_count", VNum 1);
                                                   ("items", VArr [react_json])])))
              (Some (units_of "rust")) eq_refl)
    as (s & url & ev & v & _ & _ & _ & H & _).
  reflexivity.
Defined.
